(** * The draft state machine of the PvP draft server (server.js)

    A shallow embedding of the socket handlers [draft:start], [draft:ban],
    [draft:pick], [draft:reset], [config:update], [room:join], [room:leave],
    [disconnect] and of the helpers [getPlayerNumber] and
    [advanceDraftState], followed by the properties of the ban/pick turn
    and phase logic.

    Conventions of the embedding.
    - The three module-level variables [draftRoom], [draftConfig] and
      [currentDraftState] form the record [Server]; a handler is a function
      from [Server] to the new [Server] and what it sent back.
    - JavaScript numbers that count bans and picks are integers ([Z]); the
      numeric configuration entries are taken to hold integers.
    - A Discord id is a JavaScript value that may be [undefined]; it is
      compared with [===].  Character ids are primitive values compared
      with [===] and are represented by strings.
    - [username], [avatar], [gameMode] and the timer entries of the
      configuration are never read by the modelled code and are left out.
    - A message whose payload is not an object makes the handler throw at
      the destructuring of [data], before any write; the model covers the
      messages that carry an object. *)

From Stdlib Require Import ZArith List String Bool Lia.
Import ListNotations.
Local Open Scope string_scope.
Local Open Scope list_scope.
Local Open Scope Z_scope.

(* ================================================================== *)
(** ** Data model *)

(** A Discord id as stored in [connectedUsers] and in the room seats. *)
Inductive JsId : Type :=
| undefined
| jsid (s : string).

(** Strict equality [===] on ids. *)
Definition JsId_eqb (a b : JsId) : bool :=
  match a, b with
  | undefined, undefined => true
  | jsid s, jsid t => String.eqb s t
  | _, _ => false
  end.

(** An entry of [connectedUsers]. *)
Record User : Type := mkUser { discordId : JsId }.

(** A seat of [draftRoom]: [{ ...user, socketId }]. *)
Record Seat : Type := mkSeat { seat_discordId : JsId; socketId : string }.

Record Room : Type := mkRoom {
  room_player1 : option Seat;
  room_player2 : option Seat
}.

(** The entries of [draftConfig] read by the draft logic. *)
Record Config : Type := mkConfig {
  bansPhase1 : Z;
  bansPhase2 : Z;
  balanceBans : Z;
  balanceBansPlayer : Z
}.

(** The argument of [config:update]: the entries present in the object. *)
Record ConfigPatch : Type := mkPatch {
  patch_bansPhase1 : option Z;
  patch_bansPhase2 : option Z;
  patch_balanceBans : option Z;
  patch_balanceBansPlayer : option Z
}.

Inductive Phase : Type := ban1 | pick1 | ban2 | pick2 | complete.

(** The string held by the [phase] field. *)
Definition phase_name (p : Phase) : string :=
  match p with
  | ban1 => "ban1"
  | pick1 => "pick1"
  | ban2 => "ban2"
  | pick2 => "pick2"
  | complete => "complete"
  end.

(** [phase.startsWith(s)] *)
Definition startsWith (p : Phase) (s : string) : bool :=
  String.prefix s (phase_name p).

Definition Phase_eqb (p q : Phase) : bool :=
  match p, q with
  | ban1, ban1 | pick1, pick1 | ban2, ban2 | pick2, pick2
  | complete, complete => true
  | _, _ => false
  end.

(** The label written into a ban record. *)
Inductive BanLabel : Type := phase1 | phase2.

Record Ban : Type := mkBan {
  ban_characterId : string;
  ban_phase : BanLabel;
  bannedBy : Z
}.

Record Pick : Type := mkPick {
  pick_characterId : string;
  pickedBy : Z;
  order : Z
}.

(** A per-player counter object [{ player1, player2 }]. *)
Record Counter : Type := mkCounter { player1 : Z; player2 : Z }.

Record DraftState : Type := mkDraftState {
  phase : Phase;
  currentPlayer : Z;
  bans : list Ban;
  picks : list Pick;
  player1Picks : list string;
  player2Picks : list string;
  currentPhase1BanCount : Counter;
  currentPhase2BanCount : Counter;
  currentPick1Count : Counter;
  currentPick2Count : Counter;
  balanceBansUsed : Z;
  timerStartedAt : Z
}.

(** The module-level state of the server. *)
Record Server : Type := mkServer {
  draftRoom : Room;
  draftConfig : Config;
  currentDraftState : option DraftState
}.

(** Messages sent to the calling socket with [socket.emit("error", ...)].
    - [NotAuthenticated]: "Non authentifie"
    - [SeatTaken]: "Slot joueur 1/2 deja occupe"
    - [PlayersOnly]: "Seuls les joueurs peuvent modifier la configuration"
    - [PreconditionError]: "Les deux joueurs doivent etre presents"
    - [NotAPlayer]: "Vous n'etes pas un joueur"
    - [NoActiveSession]: "La draft n'a pas commence"
    - [NotYourTurn]: "Ce n'est pas votre tour"
    - [WrongPhaseKind]: "Ce n'est pas une phase de ban" in [draft:ban],
      "Ce n'est pas une phase de pick" in [draft:pick]
    - [ItemAlreadyBanned]: "Ce personnage est deja banni" in [draft:ban],
      "Ce personnage est banni" in [draft:pick]
    - [ItemAlreadyPicked]: "Ce personnage est deja selectionne" *)
Inductive DraftError : Type :=
| NotAuthenticated
| SeatTaken
| PlayersOnly
| PreconditionError
| NotAPlayer
| NoActiveSession
| NotYourTurn
| WrongPhaseKind
| ItemAlreadyBanned
| ItemAlreadyPicked.

(** What a handler sends: nothing (a bare [return]), an error to the
    calling socket, or a broadcast [io.emit(name, ...)] of the new state. *)
Inductive Reply : Type :=
| Ignored
| Error (e : DraftError)
| Emit (name : string).

(* ================================================================== *)
(** ** Field updates *)

Definition set_phase (p : Phase) (d : DraftState) : DraftState :=
  mkDraftState p (currentPlayer d) (bans d) (picks d) (player1Picks d)
    (player2Picks d) (currentPhase1BanCount d) (currentPhase2BanCount d)
    (currentPick1Count d) (currentPick2Count d) (balanceBansUsed d)
    (timerStartedAt d).

Definition set_currentPlayer (n : Z) (d : DraftState) : DraftState :=
  mkDraftState (phase d) n (bans d) (picks d) (player1Picks d)
    (player2Picks d) (currentPhase1BanCount d) (currentPhase2BanCount d)
    (currentPick1Count d) (currentPick2Count d) (balanceBansUsed d)
    (timerStartedAt d).

Definition set_bans (l : list Ban) (d : DraftState) : DraftState :=
  mkDraftState (phase d) (currentPlayer d) l (picks d) (player1Picks d)
    (player2Picks d) (currentPhase1BanCount d) (currentPhase2BanCount d)
    (currentPick1Count d) (currentPick2Count d) (balanceBansUsed d)
    (timerStartedAt d).

Definition set_picks (l : list Pick) (d : DraftState) : DraftState :=
  mkDraftState (phase d) (currentPlayer d) (bans d) l (player1Picks d)
    (player2Picks d) (currentPhase1BanCount d) (currentPhase2BanCount d)
    (currentPick1Count d) (currentPick2Count d) (balanceBansUsed d)
    (timerStartedAt d).

Definition set_player1Picks (l : list string) (d : DraftState) : DraftState :=
  mkDraftState (phase d) (currentPlayer d) (bans d) (picks d) l
    (player2Picks d) (currentPhase1BanCount d) (currentPhase2BanCount d)
    (currentPick1Count d) (currentPick2Count d) (balanceBansUsed d)
    (timerStartedAt d).

Definition set_player2Picks (l : list string) (d : DraftState) : DraftState :=
  mkDraftState (phase d) (currentPlayer d) (bans d) (picks d) (player1Picks d)
    l (currentPhase1BanCount d) (currentPhase2BanCount d)
    (currentPick1Count d) (currentPick2Count d) (balanceBansUsed d)
    (timerStartedAt d).

Definition set_currentPhase1BanCount (c : Counter) (d : DraftState) : DraftState :=
  mkDraftState (phase d) (currentPlayer d) (bans d) (picks d) (player1Picks d)
    (player2Picks d) c (currentPhase2BanCount d)
    (currentPick1Count d) (currentPick2Count d) (balanceBansUsed d)
    (timerStartedAt d).

Definition set_currentPhase2BanCount (c : Counter) (d : DraftState) : DraftState :=
  mkDraftState (phase d) (currentPlayer d) (bans d) (picks d) (player1Picks d)
    (player2Picks d) (currentPhase1BanCount d) c
    (currentPick1Count d) (currentPick2Count d) (balanceBansUsed d)
    (timerStartedAt d).

Definition set_currentPick1Count (c : Counter) (d : DraftState) : DraftState :=
  mkDraftState (phase d) (currentPlayer d) (bans d) (picks d) (player1Picks d)
    (player2Picks d) (currentPhase1BanCount d) (currentPhase2BanCount d)
    c (currentPick2Count d) (balanceBansUsed d)
    (timerStartedAt d).

Definition set_currentPick2Count (c : Counter) (d : DraftState) : DraftState :=
  mkDraftState (phase d) (currentPlayer d) (bans d) (picks d) (player1Picks d)
    (player2Picks d) (currentPhase1BanCount d) (currentPhase2BanCount d)
    (currentPick1Count d) c (balanceBansUsed d)
    (timerStartedAt d).

(** [counter[`player${n}`]++] for a player number [n] returned by
    [getPlayerNumber], which is 1 or 2. *)
Definition increment (n : Z) (c : Counter) : Counter :=
  if n =? 1 then mkCounter (player1 c + 1) (player2 c)
  else if n =? 2 then mkCounter (player1 c) (player2 c + 1)
  else c.

Definition set_room (r : Room) (sv : Server) : Server :=
  mkServer r (draftConfig sv) (currentDraftState sv).

Definition set_config (c : Config) (sv : Server) : Server :=
  mkServer (draftRoom sv) c (currentDraftState sv).

Definition set_state (d : option DraftState) (sv : Server) : Server :=
  mkServer (draftRoom sv) (draftConfig sv) d.

(* ================================================================== *)
(** ** Helpers of the server *)

(** [seat?.discordId] *)
Definition seat_id (s : option Seat) : JsId :=
  match s with
  | Some x => seat_discordId x
  | None => undefined
  end.

(** [getPlayerNumber(discordId)]; [None] is [null]. *)
Definition getPlayerNumber (sv : Server) (d : JsId) : option Z :=
  if JsId_eqb (seat_id (room_player1 (draftRoom sv))) d then Some 1
  else if JsId_eqb (seat_id (room_player2 (draftRoom sv))) d then Some 2
  else None.

(** The body of [advanceDraftState] once [currentDraftState] is known to
    be an object; [cfg] is [draftConfig]. *)
Definition advance (cfg : Config) (d : DraftState) : DraftState :=
  let currentPlayer0 := currentPlayer d in
  match phase d with
  | ban1 =>
      let p1Bans := player1 (currentPhase1BanCount d) in
      let p2Bans := player2 (currentPhase1BanCount d) in
      let totalBansNeeded :=
        bansPhase1 cfg
        + (if balanceBansPlayer cfg =? 1 then balanceBans cfg else 0) in
      let p1Done :=
        p1Bans >=? (if balanceBansPlayer cfg =? 1 then totalBansNeeded
                    else bansPhase1 cfg) in
      let p2Done :=
        p2Bans >=? (if balanceBansPlayer cfg =? 2
                    then bansPhase1 cfg + balanceBans cfg
                    else bansPhase1 cfg) in
      if p1Done && p2Done then
        set_currentPlayer 1 (set_phase pick1 d)
      else
        let d1 := set_currentPlayer (if currentPlayer0 =? 1 then 2 else 1) d in
        let nextP1Bans := player1 (currentPhase1BanCount d1) in
        let nextP2Bans := player2 (currentPhase1BanCount d1) in
        if (currentPlayer d1 =? 1)
           && (nextP1Bans >=? (if balanceBansPlayer cfg =? 1
                               then totalBansNeeded else bansPhase1 cfg))
        then set_currentPlayer 2 d1
        else if (currentPlayer d1 =? 2)
                && (nextP2Bans >=? (if balanceBansPlayer cfg =? 2
                                    then bansPhase1 cfg + balanceBans cfg
                                    else bansPhase1 cfg))
        then set_currentPlayer 1 d1
        else d1
  | pick1 =>
      let p1Picks := player1 (currentPick1Count d) in
      let p2Picks := player2 (currentPick1Count d) in
      if (p1Picks >=? 3) && (p2Picks >=? 3) then
        set_currentPlayer 1 (set_phase ban2 d)
      else
        let totalPicks := p1Picks + p2Picks in
        if totalPicks =? 0 then set_currentPlayer 1 d
        else if totalPicks =? 1 then set_currentPlayer 2 d
        else if totalPicks =? 2 then set_currentPlayer 2 d
        else if totalPicks =? 3 then set_currentPlayer 1 d
        else if totalPicks =? 4 then set_currentPlayer 1 d
        else if totalPicks =? 5 then set_currentPlayer 2 d
        else d
  | ban2 =>
      let p1Bans := player1 (currentPhase2BanCount d) in
      let p2Bans := player2 (currentPhase2BanCount d) in
      if (p1Bans >=? bansPhase2 cfg) && (p2Bans >=? bansPhase2 cfg) then
        set_currentPlayer 2 (set_phase pick2 d)
      else
        let d1 := set_currentPlayer (if currentPlayer0 =? 1 then 2 else 1) d in
        if (currentPlayer d1 =? 1)
           && (player1 (currentPhase2BanCount d1) >=? bansPhase2 cfg)
        then set_currentPlayer 2 d1
        else if (currentPlayer d1 =? 2)
                && (player2 (currentPhase2BanCount d1) >=? bansPhase2 cfg)
        then set_currentPlayer 1 d1
        else d1
  | pick2 =>
      let p1Picks := player1 (currentPick2Count d) in
      let p2Picks := player2 (currentPick2Count d) in
      if (p1Picks >=? 3) && (p2Picks >=? 3) then
        set_phase complete d
      else
        let totalPicks := p1Picks + p2Picks in
        if totalPicks =? 0 then set_currentPlayer 2 d
        else if totalPicks =? 1 then set_currentPlayer 1 d
        else if totalPicks =? 2 then set_currentPlayer 1 d
        else if totalPicks =? 3 then set_currentPlayer 2 d
        else if totalPicks =? 4 then set_currentPlayer 2 d
        else if totalPicks =? 5 then set_currentPlayer 1 d
        else d
  | complete => d
  end.

(** [advanceDraftState()] on the module-level state. *)
Definition advanceDraftState (sv : Server) : Server :=
  match currentDraftState sv with
  | None => sv
  | Some d => set_state (Some (advance (draftConfig sv) d)) sv
  end.

(* ================================================================== *)
(** ** Socket handlers

    In each handler [user] is [connectedUsers.get(socket.id)] and [sock]
    is [socket.id]. *)

(** [socket.on("room:join", ...)]; [slot] is [data.slot]. *)
Definition on_room_join (sock : string) (user : option User) (slot : string)
    (sv : Server) : Server * Reply :=
  match user with
  | None => (sv, Error NotAuthenticated)
  | Some u =>
      let r := draftRoom sv in
      let seat := mkSeat (discordId u) sock in
      if String.eqb slot "player1" then
        match room_player1 r with
        | Some s =>
            if negb (JsId_eqb (seat_discordId s) (discordId u))
            then (sv, Error SeatTaken)
            else (set_room (mkRoom (Some seat) (room_player2 r)) sv,
                  Emit "room:updated")
        | None => (set_room (mkRoom (Some seat) (room_player2 r)) sv,
                   Emit "room:updated")
        end
      else if String.eqb slot "player2" then
        match room_player2 r with
        | Some s =>
            if negb (JsId_eqb (seat_discordId s) (discordId u))
            then (sv, Error SeatTaken)
            else (set_room (mkRoom (room_player1 r) (Some seat)) sv,
                  Emit "room:updated")
        | None => (set_room (mkRoom (room_player1 r) (Some seat)) sv,
                   Emit "room:updated")
        end
      else (sv, Emit "room:updated")
  end.

(** [socket.on("room:leave", ...)] *)
Definition on_room_leave (user : option User) (sv : Server) : Server * Reply :=
  match user with
  | None => (sv, Ignored)
  | Some u =>
      let r := draftRoom sv in
      if JsId_eqb (seat_id (room_player1 r)) (discordId u) then
        (set_room (mkRoom None (room_player2 r)) sv, Emit "room:updated")
      else if JsId_eqb (seat_id (room_player2 r)) (discordId u) then
        (set_room (mkRoom (room_player1 r) None) sv, Emit "room:updated")
      else (sv, Emit "room:updated")
  end.

(** [seat?.socketId === socket.id] *)
Definition seat_has_socket (s : option Seat) (sock : string) : bool :=
  match s with
  | Some x => String.eqb (socketId x) sock
  | None => false
  end.

(** [socket.on("disconnect", ...)], as far as it touches the room. *)
Definition on_disconnect (sock : string) (user : option User) (sv : Server)
    : Server * Reply :=
  match user with
  | None => (sv, Ignored)
  | Some _ =>
      let r := draftRoom sv in
      if seat_has_socket (room_player1 r) sock then
        (set_room (mkRoom None (room_player2 r)) sv, Emit "room:updated")
      else if seat_has_socket (room_player2 r) sock then
        (set_room (mkRoom (room_player1 r) None) sv, Emit "room:updated")
      else (sv, Ignored)
  end.

(** [{ ...draftConfig, ...config }] *)
Definition merge_config (c : Config) (p : ConfigPatch) : Config :=
  let pick_entry (o : option Z) (old : Z) :=
    match o with Some v => v | None => old end in
  mkConfig (pick_entry (patch_bansPhase1 p) (bansPhase1 c))
           (pick_entry (patch_bansPhase2 p) (bansPhase2 c))
           (pick_entry (patch_balanceBans p) (balanceBans c))
           (pick_entry (patch_balanceBansPlayer p) (balanceBansPlayer c)).

(** [socket.on("config:update", ...)] *)
Definition on_config_update (user : option User) (config : ConfigPatch)
    (sv : Server) : Server * Reply :=
  match user with
  | None => (sv, Ignored)
  | Some u =>
      let r := draftRoom sv in
      if negb (JsId_eqb (seat_id (room_player1 r)) (discordId u))
         && negb (JsId_eqb (seat_id (room_player2 r)) (discordId u))
      then (sv, Error PlayersOnly)
      else (set_config (merge_config (draftConfig sv) config) sv,
            Emit "config:updated")
  end.

(** The object assigned to [currentDraftState] by [draft:start]; [now] is
    [Date.now()]. *)
Definition initialDraftState (now : Z) : DraftState :=
  mkDraftState ban1 1 [] [] [] []
    (mkCounter 0 0) (mkCounter 0 0) (mkCounter 0 0) (mkCounter 0 0) 0 now.

(** [socket.on("draft:start", ...)] *)
Definition on_draft_start (user : option User) (now : Z) (sv : Server)
    : Server * Reply :=
  match user with
  | None => (sv, Ignored)
  | Some _ =>
      match room_player1 (draftRoom sv), room_player2 (draftRoom sv) with
      | Some _, Some _ =>
          (set_state (Some (initialDraftState now)) sv, Emit "draft:started")
      | _, _ => (sv, Error PreconditionError)
      end
  end.

(** The mutation block of [draft:ban] (the push onto [bans] and the counter
    update), run once every check has passed. *)
Definition record_ban (playerNumber : Z) (characterId : string)
    (d : DraftState) : DraftState :=
  let label := if Phase_eqb (phase d) ban1 then phase1 else phase2 in
  let d1 := set_bans (bans d ++ [mkBan characterId label playerNumber]) d in
  if Phase_eqb (phase d1) ban1 then
    set_currentPhase1BanCount
      (increment playerNumber (currentPhase1BanCount d1)) d1
  else
    set_currentPhase2BanCount
      (increment playerNumber (currentPhase2BanCount d1)) d1.

(** The mutation block of [draft:pick]. *)
Definition record_pick (playerNumber : Z) (characterId : string)
    (d : DraftState) : DraftState :=
  let d1 :=
    set_picks
      (picks d
       ++ [mkPick characterId playerNumber
             (Z.of_nat (List.length (picks d)) + 1)]) d in
  let d2 :=
    if playerNumber =? 1 then
      set_player1Picks (player1Picks d1 ++ [characterId]) d1
    else
      set_player2Picks (player2Picks d1 ++ [characterId]) d1 in
  if Phase_eqb (phase d2) pick1 then
    set_currentPick1Count (increment playerNumber (currentPick1Count d2)) d2
  else
    set_currentPick2Count (increment playerNumber (currentPick2Count d2)) d2.

(** [socket.on("draft:ban", ...)]; [characterId] is [data.characterId]. *)
Definition on_draft_ban (user : option User) (characterId : string)
    (sv : Server) : Server * Reply :=
  match user with
  | None => (sv, Ignored)
  | Some u =>
      match getPlayerNumber sv (discordId u) with
      | None => (sv, Error NotAPlayer)
      | Some playerNumber =>
          match currentDraftState sv with
          | None => (sv, Error NoActiveSession)
          | Some d =>
              if negb (currentPlayer d =? playerNumber) then
                (sv, Error NotYourTurn)
              else if negb (startsWith (phase d) "ban") then
                (sv, Error WrongPhaseKind)
              else if existsb
                        (fun b => String.eqb (ban_characterId b) characterId)
                        (bans d)
              then (sv, Error ItemAlreadyBanned)
              else
                (advanceDraftState
                   (set_state (Some (record_ban playerNumber characterId d)) sv),
                 Emit "draft:updated")
          end
      end
  end.

(** [socket.on("draft:pick", ...)] *)
Definition on_draft_pick (user : option User) (characterId : string)
    (sv : Server) : Server * Reply :=
  match user with
  | None => (sv, Ignored)
  | Some u =>
      match getPlayerNumber sv (discordId u) with
      | None => (sv, Error NotAPlayer)
      | Some playerNumber =>
          match currentDraftState sv with
          | None => (sv, Error NoActiveSession)
          | Some d =>
              if negb (currentPlayer d =? playerNumber) then
                (sv, Error NotYourTurn)
              else if negb (startsWith (phase d) "pick") then
                (sv, Error WrongPhaseKind)
              else if existsb
                        (fun b => String.eqb (ban_characterId b) characterId)
                        (bans d)
              then (sv, Error ItemAlreadyBanned)
              else if existsb
                        (fun p => String.eqb (pick_characterId p) characterId)
                        (picks d)
              then (sv, Error ItemAlreadyPicked)
              else
                (advanceDraftState
                   (set_state (Some (record_pick playerNumber characterId d)) sv),
                 Emit "draft:updated")
          end
      end
  end.

(** [socket.on("draft:reset", ...)] *)
Definition on_draft_reset (user : option User) (sv : Server) : Server * Reply :=
  match user with
  | None => (sv, Ignored)
  | Some _ => (set_state None sv, Emit "draft:reset")
  end.

(* ================================================================== *)
(** ** The server as a transition system *)

(** The values of the module-level variables when the process starts. *)
Definition initialServer : Server :=
  mkServer (mkRoom None None) (mkConfig 1 1 0 1) None.

(** An incoming socket message together with the socket it arrives on. *)
Inductive Event : Type :=
| room_join (sock : string) (user : option User) (slot : string)
| room_leave (user : option User)
| disconnect (sock : string) (user : option User)
| config_update (user : option User) (config : ConfigPatch)
| draft_start (user : option User) (now : Z)
| draft_ban (user : option User) (characterId : string)
| draft_pick (user : option User) (characterId : string)
| draft_reset (user : option User).

Definition handle (e : Event) (sv : Server) : Server * Reply :=
  match e with
  | room_join sock user slot => on_room_join sock user slot sv
  | room_leave user => on_room_leave user sv
  | disconnect sock user => on_disconnect sock user sv
  | config_update user config => on_config_update user config sv
  | draft_start user now => on_draft_start user now sv
  | draft_ban user c => on_draft_ban user c sv
  | draft_pick user c => on_draft_pick user c sv
  | draft_reset user => on_draft_reset user sv
  end.

(** The state after an event; events are handled one at a time. *)
Definition next (sv : Server) (e : Event) : Server := fst (handle e sv).

Definition run (sv : Server) (es : list Event) : Server := fold_left next es sv.

(** States the server can be in after any sequence of messages. *)
Inductive reachable : Server -> Prop :=
| reachable_init : reachable initialServer
| reachable_next sv e : reachable sv -> reachable (next sv e).

(* ================================================================== *)
(** ** Vocabulary of the specification

    The definitions below follow the wording of the specification; the
    theorems compare them with the handlers above. *)

(** A ban or pick is successful when the handler broadcasts the update. *)
Definition succeeds (r : Server * Reply) : Prop := snd r = Emit "draft:updated".

Definition fails_with (e : DraftError) (r : Server * Reply) : Prop :=
  snd r = Error e.

(** The seated player's number of an actor; [None] when the actor is not
    one of the two seated players. *)
Definition player_number (sv : Server) (u : User) : option Z :=
  getPlayerNumber sv (discordId u).

(** The player number of whoever sent a message, if any. *)
Definition actor_number (sv : Server) (user : option User) : option Z :=
  match user with
  | Some u => player_number sv u
  | None => None
  end.

(** Phase and turn of the session, if there is one. *)
Definition phase_turn (sv : Server) : option (Phase * Z) :=
  option_map (fun d => (phase d, currentPlayer d)) (currentDraftState sv).

(** A ban or pick attempt: who sends it and the character it names. *)
Definition Attempt : Type := (option User * string)%type.

(** Every pick of the list is accepted when the picks are sent in order. *)
Fixpoint picks_succeed (sv : Server) (l : list Attempt) : Prop :=
  match l with
  | [] => True
  | (u, c) :: l' =>
      succeeds (on_draft_pick u c sv)
      /\ picks_succeed (fst (on_draft_pick u c sv)) l'
  end.

(** The player numbers of the senders, each taken when their pick arrives. *)
Fixpoint pick_turns (sv : Server) (l : list Attempt) : list (option Z) :=
  match l with
  | [] => []
  | (u, c) :: l' =>
      actor_number sv u :: pick_turns (fst (on_draft_pick u c sv)) l'
  end.

(** The server after the picks. *)
Fixpoint after_picks (sv : Server) (l : list Attempt) : Server :=
  match l with
  | [] => sv
  | (u, c) :: l' => after_picks (fst (on_draft_pick u c sv)) l'
  end.

(** The total of a counter. *)
Definition total (c : Counter) : Z := player1 c + player2 c.

(** The flip 1 <-> 2. *)
Definition other_player (p : Z) : Z := if p =? 1 then 2 else 1.

(** The entry of a counter for player [p]. *)
Definition count (c : Counter) (p : Z) : Z :=
  if p =? 1 then player1 c else player2 c.

(** need(p) in phase ban1. *)
Definition need_ban1 (cfg : Config) (p : Z) : Z :=
  if p =? balanceBansPlayer cfg then bansPhase1 cfg + balanceBans cfg
  else bansPhase1 cfg.

(** need(p) in phase ban2. *)
Definition need_ban2 (cfg : Config) (p : Z) : Z := bansPhase2 cfg.

(** Player [p] is done when their ban count has reached need(p). *)
Definition done (need : Z -> Z) (c : Counter) (p : Z) : bool :=
  need p <=? count c p.

(** Flip away from the actor; if the flipped-to player is done, flip once
    more. *)
Definition flip_then_skip (need : Z -> Z) (c : Counter) (actor : Z) : Z :=
  let flipped := other_player actor in
  if done need c flipped then other_player flipped else flipped.

(** The draft-order table of phase pick1, indexed by the total number of
    picks. *)
Definition pick1_table (totalPicks : Z) : option Z :=
  match totalPicks with
  | 0 => Some 1 | 1 => Some 2 | 2 => Some 2
  | 3 => Some 1 | 4 => Some 1 | 5 => Some 2
  | _ => None
  end.

(** The mirrored table of phase pick2. *)
Definition pick2_table (totalPicks : Z) : option Z :=
  match totalPicks with
  | 0 => Some 2 | 1 => Some 1 | 2 => Some 1
  | 3 => Some 2 | 4 => Some 2 | 5 => Some 1
  | _ => None
  end.

(** The order ban1, pick1, ban2, pick2, complete. *)
Definition successor (p : Phase) : Phase :=
  match p with
  | ban1 => pick1
  | pick1 => ban2
  | ban2 => pick2
  | pick2 => complete
  | complete => complete
  end.

Definition is_ban_phase (p : Phase) : Prop := p = ban1 \/ p = ban2.
Definition is_pick_phase (p : Phase) : Prop := p = pick1 \/ p = pick2.

(** The item ids of the two sequences. *)
Definition banned_ids (d : DraftState) : list string :=
  map ban_characterId (bans d).

Definition picked_ids (d : DraftState) : list string :=
  map pick_characterId (picks d).

(** The four counters are within the quotas of [cfg]. *)
Definition within_quota (cfg : Config) (d : DraftState) : Prop :=
  (forall p, p = 1 \/ p = 2 ->
     count (currentPhase1BanCount d) p <= need_ban1 cfg p
     /\ count (currentPhase2BanCount d) p <= bansPhase2 cfg
     /\ count (currentPick1Count d) p <= 3
     /\ count (currentPick2Count d) p <= 3).

(** The counter that belongs to a phase and the update a successful
    operation of player [n] applies to it. *)
Definition bump (here : bool) (n : Z) (c : Counter) : Counter :=
  if here then
    mkCounter (player1 c + (if n =? 1 then 1 else 0))
              (player2 c + (if n =? 2 then 1 else 0))
  else c.

(** Servers whose session was started under [cfg] and has since seen any
    messages that leave the configuration equal to [cfg]. *)
Inductive session_under (cfg : Config) : Server -> Prop :=
| session_started sv user now :
    draftConfig sv = cfg ->
    snd (on_draft_start user now sv) = Emit "draft:started" ->
    session_under cfg (fst (on_draft_start user now sv))
| session_next sv e :
    session_under cfg sv ->
    draftConfig (next sv e) = cfg ->
    session_under cfg (next sv e).

(** The position of a phase in that order. *)
Definition phase_index (p : Phase) : Z :=
  match p with
  | ban1 => 0
  | pick1 => 1
  | ban2 => 2
  | pick2 => 3
  | complete => 4
  end.

(* ================================================================== *)
(** ** Sample sessions *)

Definition alice : option User := Some (mkUser (jsid "alice")).
Definition bob : option User := Some (mkUser (jsid "bob")).
Definition carol : option User := Some (mkUser (jsid "carol")).

(** Alice and Bob take the two seats of a fresh server. *)
Definition seated : Server :=
  run initialServer
    [room_join "s1" alice "player1"; room_join "s2" bob "player2"].

(** The same room with one ban each and one balance ban for player 1. *)
Definition seated_balance : Server :=
  next seated (config_update alice (mkPatch None None (Some 1) None)).

(** The same room with no phase-1 ban. *)
Definition seated_zero : Server :=
  next seated (config_update alice (mkPatch (Some 0) None None None)).

(** A session started with two bans each whose quota is lowered to none
    after one ban each. *)
Definition lowered : Server :=
  run seated
    [config_update alice (mkPatch (Some 2) None None None);
     draft_start alice 0; draft_ban alice "A"; draft_ban bob "B";
     config_update bob (mkPatch (Some 0) None None None)].

Definition six_picks (prefix : string) (who : list (option User))
    : list Attempt :=
  combine who
    (map (fun n => String.append prefix n) ["1"; "2"; "3"; "4"; "5"; "6"]).

Definition first_picks : list Attempt :=
  six_picks "C" [alice; bob; bob; alice; alice; bob].

Definition second_picks : list Attempt :=
  six_picks "D" [bob; alice; alice; bob; bob; alice].

Definition as_picks (l : list Attempt) : list Event :=
  map (fun a => draft_pick (fst a) (snd a)) l.

(** A draft under the default configuration up to the start of ban2. *)
Definition first_half : list Event :=
  [draft_start alice 0; draft_ban alice "A"; draft_ban bob "B"]
  ++ as_picks first_picks.

(** The rest of that draft. *)
Definition second_half : list Event :=
  [draft_ban alice "X"; draft_ban bob "Y"] ++ as_picks second_picks.

(* ================================================================== *)
(** ** Invariants of the session *)

Definition pick1_turns : list (Z * Z * Z) :=
  [(0, 0, 1); (1, 0, 2); (1, 1, 2); (1, 2, 1); (2, 2, 1); (3, 2, 2)].

Definition pick2_turns : list (Z * Z * Z) :=
  [(0, 0, 2); (0, 1, 1); (1, 1, 1); (2, 1, 2); (2, 2, 2); (2, 3, 1)].

Definition triple (c : Counter) (d : DraftState) : Z * Z * Z :=
  (player1 c, player2 c, currentPlayer d).

(** What the pick counters and the turn can be in each phase. *)
Definition pick_inv (d : DraftState) : Prop :=
  (currentPlayer d = 1 \/ currentPlayer d = 2)
  /\ balanceBansUsed d = 0
  /\ match phase d with
     | ban1 =>
         currentPick1Count d = mkCounter 0 0
         /\ currentPick2Count d = mkCounter 0 0
         /\ currentPhase2BanCount d = mkCounter 0 0
     | pick1 =>
         In (triple (currentPick1Count d) d) pick1_turns
         /\ currentPick2Count d = mkCounter 0 0
         /\ currentPhase2BanCount d = mkCounter 0 0
     | ban2 =>
         currentPick1Count d = mkCounter 3 3
         /\ currentPick2Count d = mkCounter 0 0
     | pick2 =>
         currentPick1Count d = mkCounter 3 3
         /\ In (triple (currentPick2Count d) d) pick2_turns
     | complete =>
         currentPick1Count d = mkCounter 3 3
         /\ currentPick2Count d = mkCounter 3 3
     end.

(** What the ban counters can be in each phase, for a session run under
    [cfg]: within quota, and in a ban phase the player to move has bans
    left. *)
Definition ban_inv (cfg : Config) (d : DraftState) : Prop :=
  let in1 :=
    player1 (currentPhase1BanCount d) <= need_ban1 cfg 1
    /\ player2 (currentPhase1BanCount d) <= need_ban1 cfg 2 in
  let in2 :=
    player1 (currentPhase2BanCount d) <= bansPhase2 cfg
    /\ player2 (currentPhase2BanCount d) <= bansPhase2 cfg in
  match phase d with
  | ban1 =>
      in1 /\ count (currentPhase1BanCount d) (currentPlayer d)
             < need_ban1 cfg (currentPlayer d)
  | pick1 => in1
  | ban2 =>
      in1 /\ in2
      /\ count (currentPhase2BanCount d) (currentPlayer d) < bansPhase2 cfg
  | pick2 | complete => in1 /\ in2
  end.

(** No duplicates inside either sequence. *)
Definition distinct_inv (d : DraftState) : Prop :=
  NoDup (banned_ids d) /\ NoDup (picked_ids d).

Definition on_session (P : DraftState -> Prop) (sv : Server) : Prop :=
  forall d, currentDraftState sv = Some d -> P d.

(* ================================================================== *)
(** ** Records, senders and registered sockets *)

Definition BanLabel_eqb (a b : BanLabel) : bool :=
  match a, b with
  | phase1, phase1 | phase2, phase2 => true
  | _, _ => false
  end.

(** The number of ban records with label [l] made by player [p]. *)
Definition bans_of (l : BanLabel) (p : Z) (bs : list Ban) : Z :=
  Z.of_nat
    (List.length
       (filter (fun b => BanLabel_eqb (ban_phase b) l && (bannedBy b =? p))
          bs)).

(** The characters picked by player [p], in the order they were picked. *)
Definition picks_of (p : Z) (ps : list Pick) : list string :=
  map pick_characterId (filter (fun k => pickedBy k =? p) ps).

(** The list 1, 2, ..., n. *)
Definition orders_upto (n : nat) : list Z :=
  map (fun i => Z.of_nat i + 1) (seq 0 n).

(** The counters and the derived pick lists agree with the two sequences
    of records. *)
Definition record_inv (d : DraftState) : Prop :=
  (bans_of phase1 1 (bans d) = player1 (currentPhase1BanCount d)
   /\ bans_of phase1 2 (bans d) = player2 (currentPhase1BanCount d)
   /\ bans_of phase2 1 (bans d) = player1 (currentPhase2BanCount d)
   /\ bans_of phase2 2 (bans d) = player2 (currentPhase2BanCount d))
  /\ Z.of_nat (List.length (bans d))
     = total (currentPhase1BanCount d) + total (currentPhase2BanCount d)
  /\ Z.of_nat (List.length (picks d))
     = total (currentPick1Count d) + total (currentPick2Count d)
  /\ (player1Picks d = picks_of 1 (picks d)
      /\ player2Picks d = picks_of 2 (picks d))
  /\ (Z.of_nat (List.length (player1Picks d))
      = player1 (currentPick1Count d) + player1 (currentPick2Count d)
      /\ Z.of_nat (List.length (player2Picks d))
         = player2 (currentPick1Count d) + player2 (currentPick2Count d))
  /\ map order (picks d) = orders_upto (List.length (picks d)).

(** An item that is both banned and picked was picked in phase pick1 and
    banned in phase ban2. *)
Definition overlap_inv (d : DraftState) : Prop :=
  forall b k,
    In b (bans d) -> In k (picks d) ->
    ban_characterId b = pick_characterId k ->
    ban_phase b = phase2 /\ 1 <= order k <= 6.

(** While no phase-2 ban has been possible every ban is labelled phase1. *)
Definition early_labels (d : DraftState) : Prop :=
  phase d = ban1 \/ phase d = pick1 ->
  forall b, In b (bans d) -> ban_phase b = phase1.

(** Once a ban phase is over both players have reached its quota. *)
Definition quota_met (cfg : Config) (d : DraftState) : Prop :=
  let met1 :=
    need_ban1 cfg 1 <= player1 (currentPhase1BanCount d)
    /\ need_ban1 cfg 2 <= player2 (currentPhase1BanCount d) in
  let met2 :=
    bansPhase2 cfg <= player1 (currentPhase2BanCount d)
    /\ bansPhase2 cfg <= player2 (currentPhase2BanCount d) in
  match phase d with
  | ban1 => True
  | pick1 | ban2 => met1
  | pick2 | complete => met1 /\ met2
  end.

(** Who sent a message: [connectedUsers.get(socket.id)]. *)
Definition sender (e : Event) : option User :=
  match e with
  | room_join _ u _ => u
  | room_leave u => u
  | disconnect _ u => u
  | config_update u _ => u
  | draft_start u _ => u
  | draft_ban u _ => u
  | draft_pick u _ => u
  | draft_reset u => u
  end.

(** [{ ...p, ...q }] on the arguments of [config:update]. *)
Definition merge_patch (p q : ConfigPatch) : ConfigPatch :=
  let later (a b : option Z) := match b with Some _ => b | None => a end in
  mkPatch (later (patch_bansPhase1 p) (patch_bansPhase1 q))
          (later (patch_bansPhase2 p) (patch_bansPhase2 q))
          (later (patch_balanceBans p) (patch_balanceBans q))
          (later (patch_balanceBansPlayer p) (patch_balanceBansPlayer q)).

(** The server together with the map [connectedUsers] (socket id to
    user); [discordToSocket] is written but never read and is left out. *)
Record Hub : Type := mkHub {
  connectedUsers : string -> option User;
  server : Server
}.

(** [connectedUsers.set(sock, u)] *)
Definition users_set (sock : string) (u : User) (m : string -> option User)
    : string -> option User :=
  fun k => if String.eqb k sock then Some u else m k.

(** [connectedUsers.delete(sock)] *)
Definition users_delete (sock : string) (m : string -> option User)
    : string -> option User :=
  fun k => if String.eqb k sock then None else m k.

(** What a socket can send. *)
Inductive Message : Type :=
| auth_login (userData : User)
| msg_room_join (slot : string)
| msg_room_leave
| msg_disconnect
| msg_config_update (config : ConfigPatch)
| msg_draft_start (now : Z)
| msg_draft_ban (characterId : string)
| msg_draft_pick (characterId : string)
| msg_draft_reset.

(** The handlers registered in [io.on("connection", ...)], for the socket
    [sock].  [auth:login] stores [userData] under the socket id and answers
    the socket with its box and the room state; [disconnect] forgets the
    socket after the room has been updated. *)
Definition receive (sock : string) (m : Message) (h : Hub) : Hub * Reply :=
  let user := connectedUsers h sock in
  let through (r : Server * Reply) :=
    (mkHub (connectedUsers h) (fst r), snd r) in
  match m with
  | auth_login userData =>
      (mkHub (users_set sock userData (connectedUsers h)) (server h),
       Emit "room:state")
  | msg_room_join slot => through (on_room_join sock user slot (server h))
  | msg_room_leave => through (on_room_leave user (server h))
  | msg_disconnect =>
      let r := on_disconnect sock user (server h) in
      (mkHub (users_delete sock (connectedUsers h)) (fst r), snd r)
  | msg_config_update config =>
      through (on_config_update user config (server h))
  | msg_draft_start now => through (on_draft_start user now (server h))
  | msg_draft_ban c => through (on_draft_ban user c (server h))
  | msg_draft_pick c => through (on_draft_pick user c (server h))
  | msg_draft_reset => through (on_draft_reset user (server h))
  end.

(** The process at start: nobody is registered. *)
Definition initialHub : Hub := mkHub (fun _ => None) initialServer.

(** What the process can be after any messages on any sockets. *)
Inductive hub_reachable : Hub -> Prop :=
| hub_init : hub_reachable initialHub
| hub_next h sock m :
    hub_reachable h -> hub_reachable (fst (receive sock m h)).

(** The players of the twelve picks of a draft, in order. *)
Definition snake : list Z := [1; 2; 2; 1; 1; 2; 2; 1; 1; 2; 2; 1].

(** The picks recorded so far were made in that order. *)
Definition pick_order_inv (d : DraftState) : Prop :=
  map pickedBy (picks d) = firstn (List.length (picks d)) snake.

(** The process after the messages of [l], each with its socket. *)
Definition receive_all (h : Hub) (l : list (string * Message)) : Hub :=
  fold_left (fun h a => fst (receive (fst a) (snd a) h)) l h.

(** Alice (socket s1) and Bob (socket s2) log in, sit down, and Alice
    starts a draft and bans. *)
Definition sample_hub : Hub :=
  receive_all initialHub
    [("s1", auth_login (mkUser (jsid "alice")));
     ("s2", auth_login (mkUser (jsid "bob")));
     ("s1", msg_room_join "player1"); ("s2", msg_room_join "player2");
     ("s1", msg_draft_start 0); ("s1", msg_draft_ban "A")].

(* ================================================================== *)
(** * Properties *)

(** ** Basic facts about the handlers *)

(** Comparisons between the literals 1 and 2. *)
Ltac lits :=
  repeat progress
    (change (1 =? 1) with true; change (2 =? 2) with true;
     change (2 =? 1) with false; change (1 =? 2) with false;
     cbv iota).

(** Evaluate the right-hand side of an equation in the context. *)
Ltac eval_rhs H :=
  match type of H with
  | ?l = ?r => let r' := eval cbv in r in change (l = r') in H
  end.

Lemma getPlayerNumber_range sv i n :
  getPlayerNumber sv i = Some n -> n = 1 \/ n = 2.
Proof.
  unfold getPlayerNumber.
  destruct (JsId_eqb _ i); [intros [= <-]; now left|].
  destruct (JsId_eqb _ i); [intros [= <-]; now right|discriminate].
Qed.

Lemma startsWith_ban p : startsWith p "ban" = true <-> is_ban_phase p.
Proof.
  unfold is_ban_phase; destruct p; cbn; split; intros H; auto;
    try discriminate; destruct H; discriminate.
Qed.

Lemma startsWith_pick p : startsWith p "pick" = true <-> is_pick_phase p.
Proof.
  unfold is_pick_phase; destruct p; cbn; split; intros H; auto;
    try discriminate; destruct H; discriminate.
Qed.

Lemma existsb_ban_ids c l :
  existsb (fun b => String.eqb (ban_characterId b) c) l = true
  <-> In c (map ban_characterId l).
Proof.
  rewrite existsb_exists, in_map_iff; split; intros [b [H1 H2]]; exists b.
  - apply String.eqb_eq in H2; auto.
  - split; [auto | now apply String.eqb_eq].
Qed.

Lemma existsb_pick_ids c l :
  existsb (fun p => String.eqb (pick_characterId p) c) l = true
  <-> In c (map pick_characterId l).
Proof.
  rewrite existsb_exists, in_map_iff; split; intros [b [H1 H2]]; exists b.
  - apply String.eqb_eq in H2; auto.
  - split; [auto | now apply String.eqb_eq].
Qed.

(** A ban that is accepted went through every check of the handler. *)
Lemma ban_succeeds_inv user c sv :
  succeeds (on_draft_ban user c sv) ->
  exists u n d,
    user = Some u
    /\ player_number sv u = Some n
    /\ (n = 1 \/ n = 2)
    /\ currentDraftState sv = Some d
    /\ currentPlayer d = n
    /\ is_ban_phase (phase d)
    /\ ~ In c (banned_ids d)
    /\ fst (on_draft_ban user c sv)
       = set_state (Some (advance (draftConfig sv) (record_ban n c d))) sv.
Proof.
  unfold succeeds, on_draft_ban, player_number.
  destruct user as [u|]; [|discriminate].
  destruct (getPlayerNumber sv (discordId u)) as [n|] eqn:Hn; [|discriminate].
  destruct (currentDraftState sv) as [d|] eqn:Hd; [|discriminate].
  destruct (Z.eqb_spec (currentPlayer d) n) as [Hcp|]; [|discriminate].
  destruct (startsWith (phase d) "ban") eqn:Hph; [|discriminate].
  destruct (existsb _ (bans d)) eqn:Hex; [discriminate|].
  cbn. intros _. exists u, n, d.
  repeat split; auto.
  - eapply getPlayerNumber_range; eauto.
  - now apply startsWith_ban.
  - intros Hin. apply existsb_ban_ids in Hin. congruence.
Qed.

(** A pick that is accepted went through every check of the handler. *)
Lemma pick_succeeds_inv user c sv :
  succeeds (on_draft_pick user c sv) ->
  exists u n d,
    user = Some u
    /\ player_number sv u = Some n
    /\ (n = 1 \/ n = 2)
    /\ currentDraftState sv = Some d
    /\ currentPlayer d = n
    /\ is_pick_phase (phase d)
    /\ ~ In c (banned_ids d)
    /\ ~ In c (picked_ids d)
    /\ fst (on_draft_pick user c sv)
       = set_state (Some (advance (draftConfig sv) (record_pick n c d))) sv.
Proof.
  unfold succeeds, on_draft_pick, player_number.
  destruct user as [u|]; [|discriminate].
  destruct (getPlayerNumber sv (discordId u)) as [n|] eqn:Hn; [|discriminate].
  destruct (currentDraftState sv) as [d|] eqn:Hd; [|discriminate].
  destruct (Z.eqb_spec (currentPlayer d) n) as [Hcp|]; [|discriminate].
  destruct (startsWith (phase d) "pick") eqn:Hph; [|discriminate].
  destruct (existsb _ (bans d)) eqn:Hex; [discriminate|].
  destruct (existsb _ (picks d)) eqn:Hex2; [discriminate|].
  cbn. intros _. exists u, n, d.
  repeat split; auto.
  - eapply getPlayerNumber_range; eauto.
  - now apply startsWith_pick.
  - intros Hin. apply existsb_ban_ids in Hin. congruence.
  - intros Hin. apply existsb_pick_ids in Hin. congruence.
Qed.

(** A ban or pick that is not accepted returns the server it was given. *)
Lemma ban_fst user c sv :
  fst (on_draft_ban user c sv) = sv \/ succeeds (on_draft_ban user c sv).
Proof.
  unfold succeeds, on_draft_ban.
  destruct user as [u|]; auto.
  destruct (getPlayerNumber sv (discordId u)); auto.
  destruct (currentDraftState sv); auto.
  destruct (negb _); auto. destruct (negb _); auto.
  destruct (existsb _ _); auto.
Qed.

Lemma pick_fst user c sv :
  fst (on_draft_pick user c sv) = sv \/ succeeds (on_draft_pick user c sv).
Proof.
  unfold succeeds, on_draft_pick.
  destruct user as [u|]; auto.
  destruct (getPlayerNumber sv (discordId u)); auto.
  destruct (currentDraftState sv); auto.
  destruct (negb _); auto. destruct (negb _); auto.
  destruct (existsb _ _); auto. destruct (existsb _ _); auto.
Qed.

(** ** What the mutation blocks and the transition write *)

(** [advanceDraftState] only writes [phase] and [currentPlayer]. *)
Lemma advance_frame cfg d :
  let d' := advance cfg d in
  bans d' = bans d /\ picks d' = picks d
  /\ player1Picks d' = player1Picks d /\ player2Picks d' = player2Picks d
  /\ currentPhase1BanCount d' = currentPhase1BanCount d
  /\ currentPhase2BanCount d' = currentPhase2BanCount d
  /\ currentPick1Count d' = currentPick1Count d
  /\ currentPick2Count d' = currentPick2Count d
  /\ balanceBansUsed d' = balanceBansUsed d
  /\ timerStartedAt d' = timerStartedAt d.
Proof.
  unfold advance.
  destruct (phase d);
    repeat match goal with
      | |- context [if ?b then _ else _] => destruct b
      end; cbn; repeat split; reflexivity.
Qed.

(** The mutation block of [draft:ban], field by field. *)
Lemma record_ban_fields n c d :
  let d' := record_ban n c d in
  phase d' = phase d /\ currentPlayer d' = currentPlayer d
  /\ bans d'
     = bans d
       ++ [mkBan c (if Phase_eqb (phase d) ban1 then phase1 else phase2) n]
  /\ picks d' = picks d
  /\ player1Picks d' = player1Picks d /\ player2Picks d' = player2Picks d
  /\ currentPhase1BanCount d'
     = (if Phase_eqb (phase d) ban1
        then increment n (currentPhase1BanCount d)
        else currentPhase1BanCount d)
  /\ currentPhase2BanCount d'
     = (if Phase_eqb (phase d) ban1
        then currentPhase2BanCount d
        else increment n (currentPhase2BanCount d))
  /\ currentPick1Count d' = currentPick1Count d
  /\ currentPick2Count d' = currentPick2Count d
  /\ balanceBansUsed d' = balanceBansUsed d
  /\ timerStartedAt d' = timerStartedAt d.
Proof.
  unfold record_ban. cbn.
  destruct (Phase_eqb (phase d) ban1); cbn; repeat split; reflexivity.
Qed.

(** The mutation block of [draft:pick], field by field. *)
Lemma record_pick_fields n c d :
  let d' := record_pick n c d in
  phase d' = phase d /\ currentPlayer d' = currentPlayer d
  /\ bans d' = bans d
  /\ picks d'
     = picks d ++ [mkPick c n (Z.of_nat (List.length (picks d)) + 1)]
  /\ player1Picks d'
     = (if n =? 1 then player1Picks d ++ [c] else player1Picks d)
  /\ player2Picks d'
     = (if n =? 1 then player2Picks d else player2Picks d ++ [c])
  /\ currentPhase1BanCount d' = currentPhase1BanCount d
  /\ currentPhase2BanCount d' = currentPhase2BanCount d
  /\ currentPick1Count d'
     = (if Phase_eqb (phase d) pick1
        then increment n (currentPick1Count d)
        else currentPick1Count d)
  /\ currentPick2Count d'
     = (if Phase_eqb (phase d) pick1
        then currentPick2Count d
        else increment n (currentPick2Count d))
  /\ balanceBansUsed d' = balanceBansUsed d
  /\ timerStartedAt d' = timerStartedAt d.
Proof.
  unfold record_pick. cbn.
  destruct (n =? 1); cbn; destruct (Phase_eqb (phase d) pick1); cbn;
    repeat split; reflexivity.
Qed.

(** ** The ban phases *)

(** In phase ban1 [advanceDraftState] computes the specification's rule. *)
Lemma advance_ban1 cfg d n :
  phase d = ban1 -> currentPlayer d = n -> n = 1 \/ n = 2 ->
  let cnt := currentPhase1BanCount d in
  advance cfg d
  = if done (need_ban1 cfg) cnt 1 && done (need_ban1 cfg) cnt 2
    then set_currentPlayer 1 (set_phase pick1 d)
    else set_currentPlayer (flip_then_skip (need_ban1 cfg) cnt n) d.
Proof.
  intros Hph Hcp Hn cnt. unfold advance. rewrite Hph, Hcp.
  unfold flip_then_skip, done, need_ban1, count, other_player.
  fold cnt. cbn [currentPhase1BanCount currentPlayer set_currentPlayer].
  fold cnt. rewrite !Z.geb_leb.
  destruct Hn as [-> | ->]; lits;
    destruct (Z.eqb_spec (balanceBansPlayer cfg) 1) as [E1|E1];
    destruct (Z.eqb_spec (balanceBansPlayer cfg) 2) as [E2|E2];
    destruct (Z.eqb_spec 1 (balanceBansPlayer cfg));
    destruct (Z.eqb_spec 2 (balanceBansPlayer cfg)); try lia;
    repeat match goal with
      | |- context [?x <=? ?y] => destruct (Z.leb_spec x y)
      end; cbn [andb]; try lia; reflexivity.
Qed.

(** In phase ban2 the same rule applies with the plain quota. *)
Lemma advance_ban2 cfg d n :
  phase d = ban2 -> currentPlayer d = n -> n = 1 \/ n = 2 ->
  let cnt := currentPhase2BanCount d in
  advance cfg d
  = if done (need_ban2 cfg) cnt 1 && done (need_ban2 cfg) cnt 2
    then set_currentPlayer 2 (set_phase pick2 d)
    else set_currentPlayer (flip_then_skip (need_ban2 cfg) cnt n) d.
Proof.
  intros Hph Hcp Hn cnt. unfold advance. rewrite Hph, Hcp.
  unfold flip_then_skip, done, need_ban2, count, other_player.
  cbn [currentPhase2BanCount currentPlayer set_currentPlayer].
  fold cnt. rewrite !Z.geb_leb.
  destruct Hn as [-> | ->]; lits;
    repeat match goal with
      | |- context [?x <=? ?y] => destruct (Z.leb_spec x y)
      end; cbn [andb]; try lia; reflexivity.
Qed.

(** What a successful ban leaves behind. *)
Lemma ban_result user c sv :
  succeeds (on_draft_ban user c sv) ->
  exists n d,
    actor_number sv user = Some n /\ (n = 1 \/ n = 2)
    /\ currentDraftState sv = Some d /\ currentPlayer d = n
    /\ is_ban_phase (phase d) /\ ~ In c (banned_ids d)
    /\ draftRoom (fst (on_draft_ban user c sv)) = draftRoom sv
    /\ draftConfig (fst (on_draft_ban user c sv)) = draftConfig sv
    /\ currentDraftState (fst (on_draft_ban user c sv))
       = Some (advance (draftConfig sv) (record_ban n c d)).
Proof.
  intros H. destruct (ban_succeeds_inv _ _ _ H)
    as (u & n & d & -> & Hn & Hr & Hd & Hcp & Hph & Hc & ->).
  exists n, d. cbn. repeat split; auto.
Qed.

Lemma pick_result user c sv :
  succeeds (on_draft_pick user c sv) ->
  exists n d,
    actor_number sv user = Some n /\ (n = 1 \/ n = 2)
    /\ currentDraftState sv = Some d /\ currentPlayer d = n
    /\ is_pick_phase (phase d)
    /\ ~ In c (banned_ids d) /\ ~ In c (picked_ids d)
    /\ draftRoom (fst (on_draft_pick user c sv)) = draftRoom sv
    /\ draftConfig (fst (on_draft_pick user c sv)) = draftConfig sv
    /\ currentDraftState (fst (on_draft_pick user c sv))
       = Some (advance (draftConfig sv) (record_pick n c d)).
Proof.
  intros H. destruct (pick_succeeds_inv _ _ _ H)
    as (u & n & d & -> & Hn & Hr & Hd & Hcp & Hph & Hc & Hc' & ->).
  exists n, d. cbn. repeat split; auto.
Qed.

Lemma start_result user now sv :
  snd (on_draft_start user now sv) = Emit "draft:started" ->
  draftRoom (fst (on_draft_start user now sv)) = draftRoom sv
  /\ draftConfig (fst (on_draft_start user now sv)) = draftConfig sv
  /\ currentDraftState (fst (on_draft_start user now sv))
     = Some (initialDraftState now).
Proof.
  unfold on_draft_start. destruct user; [|discriminate].
  destruct (room_player1 _); [|discriminate].
  destruct (room_player2 _); [|discriminate].
  cbn. auto.
Qed.

(** The general rule of phase ban1 on the handler. *)
Lemma ban1_rule user c sv d :
  currentDraftState sv = Some d -> phase d = ban1 ->
  succeeds (on_draft_ban user c sv) ->
  exists d',
    currentDraftState (fst (on_draft_ban user c sv)) = Some d'
    /\ actor_number sv user = Some (currentPlayer d)
    /\ let cnt := currentPhase1BanCount d' in
       let need := need_ban1 (draftConfig sv) in
       if done need cnt 1 && done need cnt 2
       then phase d' = pick1 /\ currentPlayer d' = 1
       else phase d' = ban1
            /\ currentPlayer d' = flip_then_skip need cnt (currentPlayer d).
Proof.
  intros Hd Hph H.
  destruct (ban_result _ _ _ H)
    as (n & d0 & Ha & Hn & Hd0 & Hcp & _ & _ & _ & _ & Hres).
  rewrite Hd in Hd0. injection Hd0 as <-.
  eexists. split; [exact Hres|]. split; [congruence|].
  destruct (record_ban_fields n c d)
    as (Rph & Rcp & _ & _ & _ & _ & Rc1 & _).
  destruct (advance_frame (draftConfig sv) (record_ban n c d))
    as (_ & _ & _ & _ & Fc1 & _).
  cbv zeta. rewrite Fc1.
  rewrite (advance_ban1 (draftConfig sv) (record_ban n c d) n);
    [|congruence|congruence|assumption].
  rewrite Hcp.
  destruct (done _ _ 1 && done _ _ 2); cbn; split; auto; congruence.
Qed.

(** With one ban each and one balance ban for player 1, the three bans of
    phase ban1 are made by players 1, 2 and 1. *)
Lemma ban1_balance_scenario sv0 user0 now ua a ub b uc c :
  bansPhase1 (draftConfig sv0) = 1 ->
  balanceBans (draftConfig sv0) = 1 ->
  balanceBansPlayer (draftConfig sv0) = 1 ->
  snd (on_draft_start user0 now sv0) = Emit "draft:started" ->
  let s1 := fst (on_draft_start user0 now sv0) in
  let s2 := fst (on_draft_ban ua a s1) in
  let s3 := fst (on_draft_ban ub b s2) in
  let s4 := fst (on_draft_ban uc c s3) in
  succeeds (on_draft_ban ua a s1) ->
  succeeds (on_draft_ban ub b s2) ->
  succeeds (on_draft_ban uc c s3) ->
  phase_turn s1 = Some (ban1, 1)
  /\ actor_number s1 ua = Some 1 /\ phase_turn s2 = Some (ban1, 2)
  /\ actor_number s2 ub = Some 2 /\ phase_turn s3 = Some (ban1, 1)
  /\ actor_number s3 uc = Some 1 /\ phase_turn s4 = Some (pick1, 1)
  /\ option_map currentPhase1BanCount (currentDraftState s4)
     = Some (mkCounter 2 1).
Proof.
  intros B1 BB BP Hs s1 s2 s3 s4 H1 H2 H3.
  destruct (start_result _ _ _ Hs) as (_ & Hc1 & Hd1).
  fold s1 in Hc1, Hd1.
  destruct (ban_result _ _ _ H1)
    as (n1 & d1 & Ha1 & _ & E1 & Hcp1 & _ & _ & _ & Hc2 & Hd2).
  fold s2 in Hc2, Hd2.
  rewrite Hd1 in E1. injection E1 as <-. cbn in Hcp1. subst n1.
  destruct (ban_result _ _ _ H2)
    as (n2 & d2 & Ha2 & _ & E2 & Hcp2 & _ & _ & _ & Hc3 & Hd3).
  fold s3 in Hc3, Hd3.
  destruct (ban_result _ _ _ H3)
    as (n3 & d3 & Ha3 & _ & E3 & Hcp3 & _ & _ & _ & Hc4 & Hd4).
  fold s4 in Hd4. clearbody s1 s2 s3 s4.
  rewrite Hc3, Hc2, Hc1 in Hd4. rewrite Hc2, Hc1 in Hd3. rewrite Hc1 in Hd2.
  destruct (draftConfig sv0) as [q1 q2 qb qp]. cbn in B1, BB, BP. subst.
  eval_rhs Hd2. rewrite Hd2 in E2. injection E2 as <-.
  eval_rhs Hd3. rewrite Hd3 in E3. injection E3 as <-.
  eval_rhs Hd4.
  unfold phase_turn. rewrite Hd1, Hd2, Hd3, Hd4. cbn in *.
  repeat split; auto.
Qed.

(** ** The pick phases *)

Lemma pick1_table_outside t :
  t <> 0 -> t <> 1 -> t <> 2 -> t <> 3 -> t <> 4 -> t <> 5 ->
  pick1_table t = None /\ pick2_table t = None.
Proof.
  intros. destruct t as [|p|p]; [lia| |split; reflexivity].
  destruct p as [[p|p|]|[p|p|]|]; try destruct p; cbn; auto; lia.
Qed.

(** In phase pick1 [advanceDraftState] follows the draft-order table. *)
Lemma advance_pick1 cfg d :
  phase d = pick1 ->
  let c := currentPick1Count d in
  advance cfg d
  = if (3 <=? player1 c) && (3 <=? player2 c)
    then set_currentPlayer 1 (set_phase ban2 d)
    else match pick1_table (player1 c + player2 c) with
         | Some p => set_currentPlayer p d
         | None => d
         end.
Proof.
  intros Hph c. unfold advance. rewrite Hph. fold c. rewrite !Z.geb_leb.
  destruct ((3 <=? player1 c) && (3 <=? player2 c)); [reflexivity|].
  set (t := player1 c + player2 c).
  repeat match goal with
    | |- context [t =? ?k] =>
        destruct (Z.eqb_spec t k) as [->|]; [reflexivity|]
    end.
  now destruct (pick1_table_outside t) as [-> _].
Qed.

(** In phase pick2 it follows the mirrored table and ends the draft. *)
Lemma advance_pick2 cfg d :
  phase d = pick2 ->
  let c := currentPick2Count d in
  advance cfg d
  = if (3 <=? player1 c) && (3 <=? player2 c)
    then set_phase complete d
    else match pick2_table (player1 c + player2 c) with
         | Some p => set_currentPlayer p d
         | None => d
         end.
Proof.
  intros Hph c. unfold advance. rewrite Hph. fold c. rewrite !Z.geb_leb.
  destruct ((3 <=? player1 c) && (3 <=? player2 c)); [reflexivity|].
  set (t := player1 c + player2 c).
  repeat match goal with
    | |- context [t =? ?k] =>
        destruct (Z.eqb_spec t k) as [->|]; [reflexivity|]
    end.
  now destruct (pick1_table_outside t) as [_ ->].
Qed.

(** ** Preservation of the invariants *)

(** When somebody still has bans left, the rule hands the turn to a player
    who has bans left. *)
Lemma flip_then_skip_sound need c n :
  n = 1 \/ n = 2 ->
  done need c 1 && done need c 2 = false ->
  let p := flip_then_skip need c n in
  (p = 1 \/ p = 2) /\ count c p < need p.
Proof.
  unfold flip_then_skip, done, other_player, count.
  intros [-> | ->]; lits;
    destruct (Z.leb_spec (need 1) (player1 c));
    destruct (Z.leb_spec (need 2) (player2 c)); lits; cbn [andb];
    intros; try discriminate; split; auto; lia.
Qed.

Lemma pick_inv_initial now : pick_inv (initialDraftState now).
Proof. unfold pick_inv; cbn; auto. Qed.

Lemma pick_inv_ban cfg n c d :
  pick_inv d -> is_ban_phase (phase d) -> currentPlayer d = n ->
  n = 1 \/ n = 2 ->
  pick_inv (advance cfg (record_ban n c d)).
Proof.
  intros (Hcp & Hbb & Hinv) Hph Hn Hr.
  destruct (record_ban_fields n c d)
    as (Rph & Rcp & _ & _ & _ & _ & Rb1 & Rb2 & Rp1 & Rp2 & Rbb & _).
  destruct Hph as [Hph | Hph]; rewrite Hph in *.
  - rewrite (advance_ban1 cfg _ n) by congruence.
    destruct (done _ _ 1 && done _ _ 2) eqn:Hdone.
    + unfold pick_inv, triple; cbn. rewrite Rbb, Rp1, Rp2, Rb2. cbn.
      destruct Hinv as (-> & -> & ->). repeat split; auto.
    + destruct (flip_then_skip_sound _ _ n Hr Hdone) as [Hp _].
      unfold pick_inv; cbn. rewrite Rph, Rbb, Rp1, Rp2, Rb2. cbn.
      repeat split; tauto.
  - rewrite (advance_ban2 cfg _ n) by congruence.
    destruct (done _ _ 1 && done _ _ 2) eqn:Hdone.
    + unfold pick_inv, triple; cbn. rewrite Rbb, Rp1, Rp2.
      destruct Hinv as (-> & ->). repeat split; auto.
    + destruct (flip_then_skip_sound _ _ n Hr Hdone) as [Hp _].
      unfold pick_inv; cbn. rewrite Rph, Rbb, Rp1, Rp2. cbn.
      repeat split; tauto.
Qed.

Lemma pick_inv_pick cfg n c d :
  pick_inv d -> is_pick_phase (phase d) -> currentPlayer d = n ->
  pick_inv (advance cfg (record_pick n c d)).
Proof.
  intros (Hcp & Hbb & Hinv) Hph Hn.
  destruct d as [ph cp bs ps l1 l2 b1 b2 [x1 y1] [x2 y2] bb ts].
  unfold is_pick_phase, pick_inv, triple in *. cbn in *. subst cp bb.
  destruct Hph as [-> | ->].
  - destruct Hinv as (Hin & [= -> ->] & ->).
    cbn in Hin.
    repeat (destruct Hin as [[= <- <- <-] | Hin]; [cbn; intuition auto|]).
    contradiction.
  - destruct Hinv as ([= -> ->] & Hin).
    cbn in Hin.
    repeat (destruct Hin as [[= <- <- <-] | Hin]; [cbn; intuition auto|]).
    contradiction.
Qed.

(** What one message can do to the session: nothing, discard it, replace
    it by a fresh one, or record one ban or one pick of the player to
    move. *)
Lemma next_session sv e :
  let cur := currentDraftState sv in
  let cur' := currentDraftState (next sv e) in
  cur' = cur
  \/ cur' = None
  \/ (exists now, cur' = Some (initialDraftState now))
  \/ (exists n c d,
        cur = Some d /\ currentPlayer d = n /\ (n = 1 \/ n = 2)
        /\ is_ban_phase (phase d) /\ ~ In c (banned_ids d)
        /\ cur' = Some (advance (draftConfig sv) (record_ban n c d)))
  \/ (exists n c d,
        cur = Some d /\ currentPlayer d = n /\ (n = 1 \/ n = 2)
        /\ is_pick_phase (phase d)
        /\ ~ In c (banned_ids d) /\ ~ In c (picked_ids d)
        /\ cur' = Some (advance (draftConfig sv) (record_pick n c d))).
Proof.
  unfold next. destruct e as [sock u slot|u|sock u|u p|u now|u c|u c|u]; cbn.
  - left. unfold on_room_join. destruct u; auto.
    destruct (String.eqb slot "player1");
      [destruct (room_player1 _); [destruct (negb _)|]; auto|].
    destruct (String.eqb slot "player2");
      [destruct (room_player2 _); [destruct (negb _)|]; auto|auto].
  - left. unfold on_room_leave. destruct u; auto.
    destruct (JsId_eqb _ _); auto. destruct (JsId_eqb _ _); auto.
  - left. unfold on_disconnect. destruct u; auto.
    destruct (seat_has_socket _ _); auto.
    destruct (seat_has_socket _ _); auto.
  - left. unfold on_config_update. destruct u; auto.
    destruct (negb _ && negb _); auto.
  - unfold on_draft_start. destruct u; auto.
    destruct (room_player1 _); auto. destruct (room_player2 _); auto.
    right; right; left. now exists now.
  - destruct (ban_fst u c sv) as [-> | H]; auto.
    destruct (ban_result _ _ _ H)
      as (n & d & _ & Hn & Hd & Hcp & Hph & Hc & _ & _ & Hres).
    right; right; right; left. exists n, c, d. auto 10.
  - destruct (pick_fst u c sv) as [-> | H]; auto.
    destruct (pick_result _ _ _ H)
      as (n & d & _ & Hn & Hd & Hcp & Hph & Hc & Hc' & _ & _ & Hres).
    right; right; right; right. exists n, c, d. auto 10.
  - unfold on_draft_reset. destruct u; auto.
Qed.

(** Only [config:update] writes the configuration. *)
Lemma next_config sv e :
  draftConfig (next sv e) = draftConfig sv
  \/ exists u p, e = config_update u p.
Proof.
  unfold next. destruct e as [sock u slot|u|sock u|u p|u now|u c|u c|u]; cbn.
  - left. unfold on_room_join. destruct u; auto.
    destruct (String.eqb slot "player1");
      [destruct (room_player1 _); [destruct (negb _)|]; auto|].
    destruct (String.eqb slot "player2");
      [destruct (room_player2 _); [destruct (negb _)|]; auto|auto].
  - left. unfold on_room_leave. destruct u; auto.
    destruct (JsId_eqb _ _); auto. destruct (JsId_eqb _ _); auto.
  - left. unfold on_disconnect. destruct u; auto.
    destruct (seat_has_socket _ _); auto.
    destruct (seat_has_socket _ _); auto.
  - right. eauto.
  - left. unfold on_draft_start. destruct u; auto.
    destruct (room_player1 _); auto. destruct (room_player2 _); auto.
  - left. destruct (ban_fst u c sv) as [-> | H]; auto.
    destruct (ban_result _ _ _ H) as (n & d & H'). tauto.
  - left. destruct (pick_fst u c sv) as [-> | H]; auto.
    destruct (pick_result _ _ _ H) as (n & d & H'). tauto.
  - left. unfold on_draft_reset. destruct u; auto.
Qed.

(** The pick counters and the turn follow the tables in every state the
    server can reach. *)
Lemma reachable_pick_inv sv : reachable sv -> on_session pick_inv sv.
Proof.
  induction 1 as [|sv e Hr IH]; intros d' Hd'.
  - discriminate.
  - destruct (next_session sv e)
      as [E | [E | [(now & E) | [(n & c & d & Hd & Hcp & Hn & Hph & _ & E)
                               | (n & c & d & Hd & Hcp & Hn & Hph & _ & _ & E)]]]];
      rewrite E in Hd'.
    + auto.
    + discriminate.
    + injection Hd' as <-. apply pick_inv_initial.
    + injection Hd' as <-. apply pick_inv_ban; auto.
    + injection Hd' as <-. apply pick_inv_pick; auto.
Qed.

Lemma session_under_config cfg sv : session_under cfg sv -> draftConfig sv = cfg.
Proof.
  destruct 1 as [sv user now Hc Hs|]; auto.
  destruct (start_result _ _ _ Hs) as (_ & -> & _). auto.
Qed.

Lemma session_under_pick_inv cfg sv :
  session_under cfg sv -> on_session pick_inv sv.
Proof.
  induction 1 as [sv user now Hc Hs|sv e Hr IH Hc]; intros d' Hd'.
  - destruct (start_result _ _ _ Hs) as (_ & _ & E).
    rewrite E in Hd'. injection Hd' as <-. apply pick_inv_initial.
  - destruct (next_session sv e)
      as [E | [E | [(now & E) | [(n & c & d & Hd & Hcp & Hn & Hph & _ & E)
                               | (n & c & d & Hd & Hcp & Hn & Hph & _ & _ & E)]]]];
      rewrite E in Hd'.
    + auto.
    + discriminate.
    + injection Hd' as <-. apply pick_inv_initial.
    + injection Hd' as <-. apply pick_inv_ban; auto.
    + injection Hd' as <-. apply pick_inv_pick; auto.
Qed.

Section FixedConfig.

(** A configuration under which the player who opens each ban phase has
    at least one ban to make. *)
Variable cfg : Config.
Hypothesis need1_pos : 1 <= need_ban1 cfg 1.
Hypothesis need2_nonneg : 0 <= need_ban1 cfg 2.
Hypothesis bans2_pos : 1 <= bansPhase2 cfg.

Lemma ban_inv_initial now : ban_inv cfg (initialDraftState now).
Proof. unfold ban_inv, count; cbn. lia. Qed.

Lemma ban_inv_ban n c d :
  ban_inv cfg d -> is_ban_phase (phase d) -> currentPlayer d = n ->
  n = 1 \/ n = 2 ->
  ban_inv cfg (advance cfg (record_ban n c d)).
Proof.
  intros Hinv Hph Hn Hr.
  destruct (record_ban_fields n c d)
    as (Rph & Rcp & _ & _ & _ & _ & Rb1 & Rb2 & _).
  destruct Hph as [Hph | Hph]; unfold ban_inv in Hinv; rewrite Hph, Hn in *;
    cbn [Phase_eqb] in *.
  - rewrite (advance_ban1 cfg _ n) by congruence.
    destruct (done _ _ 1 && done _ _ 2) eqn:Hdone.
    + unfold ban_inv; cbn. rewrite Rb1.
      revert Hinv. unfold count, increment.
      destruct Hr as [-> | ->]; lits; cbn; lia.
    + destruct (flip_then_skip_sound _ _ n Hr Hdone) as [_ Hp].
      unfold ban_inv; cbn. rewrite Rph. split; [|exact Hp].
      rewrite Rb1. revert Hinv. unfold count, increment.
      destruct Hr as [-> | ->]; lits; cbn; lia.
  - rewrite (advance_ban2 cfg _ n) by congruence.
    destruct (done _ _ 1 && done _ _ 2) eqn:Hdone.
    + unfold ban_inv; cbn. rewrite Rb1, Rb2.
      revert Hinv. unfold count, increment.
      destruct Hr as [-> | ->]; lits; cbn; lia.
    + destruct (flip_then_skip_sound _ _ n Hr Hdone) as [_ Hp].
      unfold need_ban2 in Hp.
      unfold ban_inv; cbn. rewrite Rph.
      split; [|split; [|exact Hp]];
        rewrite ?Rb1, ?Rb2; revert Hinv; unfold count, increment;
        destruct Hr as [-> | ->]; lits; cbn; lia.
Qed.

Lemma ban_inv_pick n c d :
  pick_inv d -> ban_inv cfg d -> is_pick_phase (phase d) ->
  ban_inv cfg (advance cfg (record_pick n c d)).
Proof.
  intros (_ & _ & Hpk) Hinv Hph.
  destruct (record_pick_fields n c d)
    as (Rph & Rcp & _ & _ & _ & _ & Rb1 & Rb2 & _).
  destruct Hph as [Hph | Hph]; unfold ban_inv in Hinv; rewrite Hph in *.
  - rewrite advance_pick1 by congruence.
    destruct (_ && _).
    + unfold ban_inv, count; cbn. rewrite Rb1, Rb2.
      destruct Hpk as (_ & _ & ->). cbn. lia.
    + destruct (pick1_table _); unfold ban_inv; cbn;
        rewrite Rph, Rb1; exact Hinv.
  - rewrite advance_pick2 by congruence.
    destruct (_ && _).
    + unfold ban_inv; cbn. rewrite Rb1, Rb2. exact Hinv.
    + destruct (pick2_table _); unfold ban_inv; cbn;
        rewrite Rph, Rb1, Rb2; exact Hinv.
Qed.

(** A session run under [cfg] keeps both invariants. *)
Lemma session_under_ban_inv sv :
  session_under cfg sv -> on_session (ban_inv cfg) sv.
Proof.
  induction 1 as [sv user now Hc Hs|sv e Hr IH Hc]; intros d' Hd'.
  - destruct (start_result _ _ _ Hs) as (_ & _ & E).
    rewrite E in Hd'. injection Hd' as <-. apply ban_inv_initial.
  - pose proof (session_under_pick_inv _ _ Hr) as Hpk.
    pose proof (session_under_config _ _ Hr) as Hcfg.
    destruct (next_session sv e)
      as [E | [E | [(now & E) | [(n & c & d & Hd & Hcp & Hn & Hph & _ & E)
                               | (n & c & d & Hd & Hcp & Hn & Hph & _ & _ & E)]]]];
      rewrite E in Hd'.
    + auto.
    + discriminate.
    + injection Hd' as <-. apply ban_inv_initial.
    + injection Hd' as <-. rewrite Hcfg. apply ban_inv_ban; auto.
    + injection Hd' as <-. rewrite Hcfg. apply ban_inv_pick; auto.
Qed.

End FixedConfig.

(** ** Picks, one at a time *)

(** The pick made when [k] picks of phase pick1 have been made is made by
    the player the table gives for [k], and leads to the table's next
    entry or, after the sixth, to phase ban2. *)
Lemma pick1_step sv user c d :
  pick_inv d -> currentDraftState sv = Some d -> phase d = pick1 ->
  succeeds (on_draft_pick user c sv) ->
  let k := total (currentPick1Count d) in
  0 <= k <= 5
  /\ Some (currentPlayer d) = pick1_table k
  /\ actor_number sv user = pick1_table k
  /\ exists d',
       currentDraftState (fst (on_draft_pick user c sv)) = Some d'
       /\ pick_inv d'
       /\ total (currentPick1Count d') = k + 1
       /\ if k =? 5 then phase d' = ban2 /\ currentPlayer d' = 1
          else phase d' = pick1.
Proof.
  intros Hinv Hd Hph H.
  destruct (pick_result _ _ _ H)
    as (n & d0 & Ha & Hn & Hd0 & Hcp & Hpp & _ & _ & _ & _ & Hres).
  rewrite Hd in Hd0. injection Hd0 as <-.
  pose proof (pick_inv_pick (draftConfig sv) n c d Hinv Hpp Hcp) as Hinv'.
  rewrite Ha. rewrite Hres. clear Ha Hres H Hd.
  destruct Hinv as (_ & _ & Hpk).
  destruct d as [ph cp bs ps l1 l2 b1 b2 [x1 y1] [x2 y2] bb ts].
  cbn in Hph, Hcp, Hpk. subst ph cp. destruct Hpk as (Hin & _).
  unfold triple in Hin. cbn in Hin.
  repeat (destruct Hin as [[= <- <- <-] | Hin];
          [cbn; repeat split; try lia; eexists; split; [reflexivity|];
           split; [exact Hinv'|]; cbv; auto|]).
  contradiction.
Qed.

Lemma pick2_step sv user c d :
  pick_inv d -> currentDraftState sv = Some d -> phase d = pick2 ->
  succeeds (on_draft_pick user c sv) ->
  let k := total (currentPick2Count d) in
  0 <= k <= 5
  /\ Some (currentPlayer d) = pick2_table k
  /\ actor_number sv user = pick2_table k
  /\ exists d',
       currentDraftState (fst (on_draft_pick user c sv)) = Some d'
       /\ pick_inv d'
       /\ total (currentPick2Count d') = k + 1
       /\ if k =? 5 then phase d' = complete
          else phase d' = pick2.
Proof.
  intros Hinv Hd Hph H.
  destruct (pick_result _ _ _ H)
    as (n & d0 & Ha & Hn & Hd0 & Hcp & Hpp & _ & _ & _ & _ & Hres).
  rewrite Hd in Hd0. injection Hd0 as <-.
  pose proof (pick_inv_pick (draftConfig sv) n c d Hinv Hpp Hcp) as Hinv'.
  rewrite Ha. rewrite Hres. clear Ha Hres H Hd.
  destruct Hinv as (_ & _ & Hpk).
  destruct d as [ph cp bs ps l1 l2 b1 b2 [x1 y1] [x2 y2] bb ts].
  cbn in Hph, Hcp, Hpk. subst ph cp. destruct Hpk as (_ & Hin).
  unfold triple in Hin. cbn in Hin.
  repeat (destruct Hin as [[= <- <- <-] | Hin];
          [cbn; repeat split; try lia; eexists; split; [reflexivity|];
           split; [exact Hinv'|]; cbv; auto|]).
  contradiction.
Qed.

(** The table agrees with the turn in every state that satisfies the
    invariant. *)
Lemma pick_inv_table d :
  pick_inv d ->
  (phase d = pick1 ->
   pick1_table (total (currentPick1Count d)) = Some (currentPlayer d))
  /\ (phase d = pick2 ->
      pick2_table (total (currentPick2Count d)) = Some (currentPlayer d)).
Proof.
  intros (_ & _ & Hpk).
  destruct d as [ph cp bs ps l1 l2 b1 b2 [x1 y1] [x2 y2] bb ts].
  unfold triple, total in *. cbn in *.
  split; intros ->.
  - destruct Hpk as (Hin & _). cbn in Hin.
    repeat (destruct Hin as [[= <- <- <-] | Hin]; [reflexivity|]).
    contradiction.
  - destruct Hpk as (_ & Hin). cbn in Hin.
    repeat (destruct Hin as [[= <- <- <-] | Hin]; [reflexivity|]).
    contradiction.
Qed.

(** One application of a step lemma inside a run of picks. *)
Ltac pick_once step H d' :=
  match goal with
  | Hinv : pick_inv ?d, Hd : currentDraftState ?sv = Some ?d,
    Hph : phase ?d = _, Hk : total _ = _ |- _ =>
      let Ha := fresh "Ha" in
      let Hd' := fresh "Hd" in
      let Hinv' := fresh "Hinv" in
      let Hk' := fresh "Hk" in
      let Hph' := fresh "Hph" in
      destruct (step sv _ _ d Hinv Hd Hph H)
        as (_ & _ & Ha & d' & Hd' & Hinv' & Hk' & Hph');
      rewrite Hk in Ha, Hk', Hph'; cbn in Ha, Hk', Hph';
      clear Hinv Hd Hph Hk
  end.

(** Six accepted picks from the start of phase pick1. *)
Lemma pick1_six sv d l :
  pick_inv d -> currentDraftState sv = Some d -> phase d = pick1 ->
  total (currentPick1Count d) = 0 ->
  List.length l = 6%nat -> picks_succeed sv l ->
  pick_turns sv l = [Some 1; Some 2; Some 2; Some 1; Some 1; Some 2]
  /\ phase_turn (after_picks sv l) = Some (ban2, 1).
Proof.
  intros Hinv Hd Hph Hk Hlen Hs.
  destruct l as [|[u1 c1] [|[u2 c2] [|[u3 c3] [|[u4 c4] [|[u5 c5]
                [|[u6 c6] [|]]]]]]]; try discriminate.
  cbn in Hs. destruct Hs as (H1 & H2 & H3 & H4 & H5 & H6 & _).
  pick_once pick1_step H1 d1. pick_once pick1_step H2 d2.
  pick_once pick1_step H3 d3. pick_once pick1_step H4 d4.
  pick_once pick1_step H5 d5.
  destruct (pick1_step _ _ _ _ Hinv0 Hd0 Hph0 H6)
    as (_ & _ & Ha6 & d6 & Hd6 & _ & _ & Hph6).
  rewrite Hk0 in Ha6, Hph6. cbn in Ha6, Hph6. destruct Hph6 as [Hp6 Hc6].
  cbn. unfold phase_turn. rewrite Hd6. cbn. rewrite Hp6, Hc6.
  split; [|reflexivity]. repeat (f_equal; try assumption).
Qed.

(** Six accepted picks from the start of phase pick2. *)
Lemma pick2_six sv d l :
  pick_inv d -> currentDraftState sv = Some d -> phase d = pick2 ->
  total (currentPick2Count d) = 0 ->
  List.length l = 6%nat -> picks_succeed sv l ->
  pick_turns sv l = [Some 2; Some 1; Some 1; Some 2; Some 2; Some 1]
  /\ option_map phase (currentDraftState (after_picks sv l)) = Some complete.
Proof.
  intros Hinv Hd Hph Hk Hlen Hs.
  destruct l as [|[u1 c1] [|[u2 c2] [|[u3 c3] [|[u4 c4] [|[u5 c5]
                [|[u6 c6] [|]]]]]]]; try discriminate.
  cbn in Hs. destruct Hs as (H1 & H2 & H3 & H4 & H5 & H6 & _).
  pick_once pick2_step H1 d1. pick_once pick2_step H2 d2.
  pick_once pick2_step H3 d3. pick_once pick2_step H4 d4.
  pick_once pick2_step H5 d5.
  destruct (pick2_step _ _ _ _ Hinv0 Hd0 Hph0 H6)
    as (_ & _ & Ha6 & d6 & Hd6 & _ & _ & Hph6).
  rewrite Hk0 in Ha6, Hph6. cbn in Ha6, Hph6.
  cbn. rewrite Hd6. cbn. rewrite Hph6.
  split; [|reflexivity]. repeat (f_equal; try assumption).
Qed.

(** ** Reachability of the sample sessions *)

Lemma reachable_run es : forall sv, reachable sv -> reachable (run sv es).
Proof.
  induction es as [|e es IH]; intros sv H; cbn; auto.
  apply IH. now constructor.
Qed.

Lemma after_picks_run l :
  forall sv, after_picks sv l = run sv (as_picks l).
Proof.
  induction l as [|[u c] l IH]; intros sv; cbn; auto.
Qed.

(** ** Phases only move forward *)

Lemma advance_phase cfg d :
  phase (advance cfg d) = phase d
  \/ (phase (advance cfg d) = successor (phase d) /\ phase d <> complete).
Proof.
  unfold advance.
  destruct (phase d) eqn:Hph;
    repeat match goal with
      | |- context [if ?b then _ else _] => destruct b
      end; cbn; rewrite ?Hph; auto; right; split; auto; discriminate.
Qed.

(* ================================================================== *)
(** * The claims *)

(** C1. In phase ban1, after every successful ban, with need(p) =
    bansPhase1 + balanceBans for the balance-ban player and bansPhase1 for
    the other, and a player done when their phase-1 ban count has reached
    need(p): if both players are done the session moves to pick1 with
    currentPlayer = 1; otherwise currentPlayer flips away from the player
    who banned, and if the flipped-to player is done it flips once more,
    with no further check.  With bansPhase1 = 1, balanceBans = 1 and
    balanceBansPlayer = 1, the three bans made before pick1 begins are made
    by player 1, player 2 and player 1, the turn going back to player 1
    after player 2's single ban. *)
Theorem ban1_turn_rule :
  (forall user c sv d,
     currentDraftState sv = Some d -> phase d = ban1 ->
     succeeds (on_draft_ban user c sv) ->
     exists d',
       currentDraftState (fst (on_draft_ban user c sv)) = Some d'
       /\ actor_number sv user = Some (currentPlayer d)
       /\ let cnt := currentPhase1BanCount d' in
          let need := need_ban1 (draftConfig sv) in
          if done need cnt 1 && done need cnt 2
          then phase d' = pick1 /\ currentPlayer d' = 1
          else phase d' = ban1
               /\ currentPlayer d'
                  = flip_then_skip need cnt (currentPlayer d))
  /\ (forall sv0 user0 now ua a ub b uc c,
        bansPhase1 (draftConfig sv0) = 1 ->
        balanceBans (draftConfig sv0) = 1 ->
        balanceBansPlayer (draftConfig sv0) = 1 ->
        snd (on_draft_start user0 now sv0) = Emit "draft:started" ->
        let s1 := fst (on_draft_start user0 now sv0) in
        let s2 := fst (on_draft_ban ua a s1) in
        let s3 := fst (on_draft_ban ub b s2) in
        let s4 := fst (on_draft_ban uc c s3) in
        succeeds (on_draft_ban ua a s1) ->
        succeeds (on_draft_ban ub b s2) ->
        succeeds (on_draft_ban uc c s3) ->
        phase_turn s1 = Some (ban1, 1)
        /\ actor_number s1 ua = Some 1 /\ phase_turn s2 = Some (ban1, 2)
        /\ actor_number s2 ub = Some 2 /\ phase_turn s3 = Some (ban1, 1)
        /\ actor_number s3 uc = Some 1 /\ phase_turn s4 = Some (pick1, 1)
        /\ option_map currentPhase1BanCount (currentDraftState s4)
           = Some (mkCounter 2 1)).
Proof.
  split.
  - exact ban1_rule.
  - exact ban1_balance_scenario.
Qed.

Lemma ban1_turn_rule_witness :
  let s1 := fst (on_draft_start alice 0 seated_balance) in
  let s2 := fst (on_draft_ban alice "A" s1) in
  let s3 := fst (on_draft_ban bob "B" s2) in
  let s4 := fst (on_draft_ban alice "C" s3) in
  (succeeds (on_draft_ban alice "A" s1)
   /\ succeeds (on_draft_ban bob "B" s2)
   /\ succeeds (on_draft_ban alice "C" s3))
  /\ (phase_turn s1 = Some (ban1, 1)
      /\ actor_number s1 alice = Some 1 /\ phase_turn s2 = Some (ban1, 2)
      /\ actor_number s2 bob = Some 2 /\ phase_turn s3 = Some (ban1, 1)
      /\ actor_number s3 alice = Some 1 /\ phase_turn s4 = Some (pick1, 1)
      /\ option_map currentPhase1BanCount (currentDraftState s4)
         = Some (mkCounter 2 1)).
Proof.
  split.
  - repeat split; reflexivity.
  - apply (proj2 ban1_turn_rule seated_balance alice 0
             alice "A" bob "B" alice "C"); reflexivity.
Defined.

(** C3. In phase ban2, after every successful ban, with need(p) =
    bansPhase2 for both players: if both phase-2 ban counts have reached
    bansPhase2 the session moves to pick2 with currentPlayer = 2; otherwise
    the turn follows the flip-then-single-skip rule of phase ban1. *)
Theorem ban2_turn_rule :
  forall user c sv d,
    currentDraftState sv = Some d -> phase d = ban2 ->
    succeeds (on_draft_ban user c sv) ->
    exists d',
      currentDraftState (fst (on_draft_ban user c sv)) = Some d'
      /\ actor_number sv user = Some (currentPlayer d)
      /\ let cnt := currentPhase2BanCount d' in
         let need := fun _ : Z => bansPhase2 (draftConfig sv) in
         if done need cnt 1 && done need cnt 2
         then phase d' = pick2 /\ currentPlayer d' = 2
         else phase d' = ban2
              /\ currentPlayer d' = flip_then_skip need cnt (currentPlayer d).
Proof.
  intros user c sv d Hd Hph H.
  destruct (ban_result _ _ _ H)
    as (n & d0 & Ha & Hn & Hd0 & Hcp & _ & _ & _ & _ & Hres).
  rewrite Hd in Hd0. injection Hd0 as <-.
  eexists. split; [exact Hres|]. split; [congruence|].
  destruct (record_ban_fields n c d) as (Rph & Rcp & _).
  destruct (advance_frame (draftConfig sv) (record_ban n c d))
    as (_ & _ & _ & _ & _ & Fc2 & _).
  cbv zeta. rewrite Fc2.
  rewrite (advance_ban2 (draftConfig sv) (record_ban n c d) n);
    [|congruence|congruence|assumption].
  rewrite Hcp. unfold need_ban2.
  destruct (done _ _ 1 && done _ _ 2); cbn; split; auto; congruence.
Qed.

Lemma ban2_turn_rule_witness :
  let sv := run seated (first_half ++ [draft_ban alice "X"]) in
  phase_turn sv = Some (ban2, 2)
  /\ succeeds (on_draft_ban bob "Y" sv)
  /\ exists d',
       currentDraftState (fst (on_draft_ban bob "Y" sv)) = Some d'
       /\ actor_number sv bob = Some 2
       /\ let cnt := currentPhase2BanCount d' in
          let need := fun _ : Z => bansPhase2 (draftConfig sv) in
          if done need cnt 1 && done need cnt 2
          then phase d' = pick2 /\ currentPlayer d' = 2
          else phase d' = ban2 /\ currentPlayer d' = flip_then_skip need cnt 2.
Proof.
  cbv zeta. split; [reflexivity|]. split; [reflexivity|].
  set (sv := run seated (first_half ++ [draft_ban alice "X"])).
  let o := eval vm_compute in (currentDraftState sv) in
  match o with
  | Some ?d => exact (ban2_turn_rule bob "Y" sv d eq_refl eq_refl eq_refl)
  end.
Defined.

(** The rule of phase pick1 on the handler, in any state. *)
Lemma pick1_rule user c sv d :
  currentDraftState sv = Some d -> phase d = pick1 ->
  succeeds (on_draft_pick user c sv) ->
  exists d',
    currentDraftState (fst (on_draft_pick user c sv)) = Some d'
    /\ let cnt := currentPick1Count d' in
       if (3 <=? player1 cnt) && (3 <=? player2 cnt)
       then phase d' = ban2 /\ currentPlayer d' = 1
       else phase d' = pick1
            /\ match pick1_table (total cnt) with
               | Some p => currentPlayer d' = p
               | None => currentPlayer d' = currentPlayer d
               end.
Proof.
  intros Hd Hph H.
  destruct (pick_result _ _ _ H)
    as (n & d0 & Ha & Hn & Hd0 & Hcp & _ & _ & _ & _ & _ & Hres).
  rewrite Hd in Hd0. injection Hd0 as <-.
  eexists. split; [exact Hres|].
  destruct (record_pick_fields n c d) as (Rph & Rcp & _).
  destruct (advance_frame (draftConfig sv) (record_pick n c d))
    as (_ & _ & _ & _ & _ & _ & Fp1 & _).
  cbv zeta. rewrite Fp1.
  rewrite (advance_pick1 (draftConfig sv) (record_pick n c d)) by congruence.
  unfold total.
  destruct (_ && _); [cbn; auto|].
  destruct (pick1_table _); cbn; split; congruence.
Qed.

(** The rule of phase pick2 on the handler, in any state. *)
Lemma pick2_rule user c sv d :
  currentDraftState sv = Some d -> phase d = pick2 ->
  succeeds (on_draft_pick user c sv) ->
  exists d',
    currentDraftState (fst (on_draft_pick user c sv)) = Some d'
    /\ let cnt := currentPick2Count d' in
       if (3 <=? player1 cnt) && (3 <=? player2 cnt)
       then phase d' = complete
       else phase d' = pick2
            /\ match pick2_table (total cnt) with
               | Some p => currentPlayer d' = p
               | None => currentPlayer d' = currentPlayer d
               end.
Proof.
  intros Hd Hph H.
  destruct (pick_result _ _ _ H)
    as (n & d0 & Ha & Hn & Hd0 & Hcp & _ & _ & _ & _ & _ & Hres).
  rewrite Hd in Hd0. injection Hd0 as <-.
  eexists. split; [exact Hres|].
  destruct (record_pick_fields n c d) as (Rph & Rcp & _).
  destruct (advance_frame (draftConfig sv) (record_pick n c d))
    as (_ & _ & _ & _ & _ & _ & _ & Fp2 & _).
  cbv zeta. rewrite Fp2.
  rewrite (advance_pick2 (draftConfig sv) (record_pick n c d)) by congruence.
  unfold total.
  destruct (_ && _); [cbn; auto|].
  destruct (pick2_table _); cbn; split; congruence.
Qed.

(** C2. In phase pick1 with quota 3, after every successful pick: if both
    phase-1 pick counts are at least 3 the session moves to ban2 with
    currentPlayer = 1; otherwise currentPlayer is the entry of the fixed
    table for totalPicks = p1Count + p2Count (0, 1, 2, 3, 4, 5 give players
    1, 2, 2, 1, 1, 2).  In every state the server can reach the total has
    an entry in the table, and six successive picks from empty counts are
    made by players 1, 2, 2, 1, 1, 2 whatever the characters picked. *)
Theorem pick1_turn_rule :
  (forall user c sv d,
     currentDraftState sv = Some d -> phase d = pick1 ->
     succeeds (on_draft_pick user c sv) ->
     exists d',
       currentDraftState (fst (on_draft_pick user c sv)) = Some d'
       /\ let cnt := currentPick1Count d' in
          if (3 <=? player1 cnt) && (3 <=? player2 cnt)
          then phase d' = ban2 /\ currentPlayer d' = 1
          else phase d' = pick1
               /\ (forall p, pick1_table (total cnt) = Some p ->
                             currentPlayer d' = p)
               /\ (reachable sv ->
                   pick1_table (total cnt) = Some (currentPlayer d')))
  /\ (forall sv d l,
        reachable sv -> currentDraftState sv = Some d -> phase d = pick1 ->
        total (currentPick1Count d) = 0 ->
        List.length l = 6%nat -> picks_succeed sv l ->
        pick_turns sv l = [Some 1; Some 2; Some 2; Some 1; Some 1; Some 2]
        /\ phase_turn (after_picks sv l) = Some (ban2, 1)).
Proof.
  split.
  - intros user c sv d Hd Hph H.
    destruct (pick1_rule _ _ _ _ Hd Hph H) as (d' & Hd' & Hrule).
    exists d'. split; [exact Hd'|]. cbv zeta in *.
    destruct (_ && _); [exact Hrule|].
    destruct Hrule as [Hph' Htab]. split; [exact Hph'|]. split.
    + intros p Hp. now rewrite Hp in Htab.
    + intros Hr.
      pose proof (reachable_pick_inv _ (reachable_next sv (draft_pick user c) Hr)
                    d' Hd') as Hinv.
      now apply pick_inv_table.
  - intros sv d l Hr Hd. apply pick1_six; auto.
    exact (reachable_pick_inv sv Hr d Hd).
Qed.

Lemma pick1_turn_rule_witness :
  let sv := run seated [draft_start alice 0; draft_ban alice "A";
                        draft_ban bob "B"] in
  picks_succeed sv first_picks
  /\ pick_turns sv first_picks
     = [Some 1; Some 2; Some 2; Some 1; Some 1; Some 2]
  /\ phase_turn (after_picks sv first_picks) = Some (ban2, 1).
Proof.
  cbv zeta.
  match goal with |- picks_succeed ?s _ /\ _ => set (sv := s) end.
  assert (Hs : picks_succeed sv first_picks) by (vm_compute; repeat split).
  split; [exact Hs|].
  let o := eval vm_compute in (currentDraftState sv) in
  match o with
  | Some ?d => apply (proj2 pick1_turn_rule sv d first_picks)
  end.
  - apply reachable_run, reachable_run, reachable_init.
  - vm_compute; reflexivity.
  - reflexivity.
  - reflexivity.
  - reflexivity.
  - exact Hs.
Defined.

(** C4. In phase pick2 with quota 3, after every successful pick: if both
    phase-2 pick counts are at least 3 the phase becomes complete;
    otherwise currentPlayer is the entry of the mirrored table for
    totalPicks (0, 1, 2, 3, 4, 5 give players 2, 1, 1, 2, 2, 1).  In every
    state the server can reach the total has an entry in the table, and
    six successive picks from empty counts are made by players
    2, 1, 1, 2, 2, 1 and end in phase complete. *)
Theorem pick2_turn_rule :
  (forall user c sv d,
     currentDraftState sv = Some d -> phase d = pick2 ->
     succeeds (on_draft_pick user c sv) ->
     exists d',
       currentDraftState (fst (on_draft_pick user c sv)) = Some d'
       /\ let cnt := currentPick2Count d' in
          if (3 <=? player1 cnt) && (3 <=? player2 cnt)
          then phase d' = complete
          else phase d' = pick2
               /\ (forall p, pick2_table (total cnt) = Some p ->
                             currentPlayer d' = p)
               /\ (reachable sv ->
                   pick2_table (total cnt) = Some (currentPlayer d')))
  /\ (forall sv d l,
        reachable sv -> currentDraftState sv = Some d -> phase d = pick2 ->
        total (currentPick2Count d) = 0 ->
        List.length l = 6%nat -> picks_succeed sv l ->
        pick_turns sv l = [Some 2; Some 1; Some 1; Some 2; Some 2; Some 1]
        /\ option_map phase (currentDraftState (after_picks sv l))
           = Some complete).
Proof.
  split.
  - intros user c sv d Hd Hph H.
    destruct (pick2_rule _ _ _ _ Hd Hph H) as (d' & Hd' & Hrule).
    exists d'. split; [exact Hd'|]. cbv zeta in *.
    destruct (_ && _); [exact Hrule|].
    destruct Hrule as [Hph' Htab]. split; [exact Hph'|]. split.
    + intros p Hp. now rewrite Hp in Htab.
    + intros Hr.
      pose proof (reachable_pick_inv _ (reachable_next sv (draft_pick user c) Hr)
                    d' Hd') as Hinv.
      now apply pick_inv_table.
  - intros sv d l Hr Hd. apply pick2_six; auto.
    exact (reachable_pick_inv sv Hr d Hd).
Qed.

Lemma pick2_turn_rule_witness :
  let sv := run seated (first_half
                        ++ [draft_ban alice "X"; draft_ban bob "Y"]) in
  picks_succeed sv second_picks
  /\ pick_turns sv second_picks
     = [Some 2; Some 1; Some 1; Some 2; Some 2; Some 1]
  /\ option_map phase (currentDraftState (after_picks sv second_picks))
     = Some complete.
Proof.
  cbv zeta.
  match goal with |- picks_succeed ?s _ /\ _ => set (sv := s) end.
  assert (Hs : picks_succeed sv second_picks) by (vm_compute; repeat split).
  split; [exact Hs|].
  let o := eval vm_compute in (currentDraftState sv) in
  match o with
  | Some ?d => apply (proj2 pick2_turn_rule sv d second_picks)
  end.
  - apply reachable_run, reachable_run, reachable_init.
  - vm_compute; reflexivity.
  - reflexivity.
  - reflexivity.
  - reflexivity.
  - exact Hs.
Defined.

(** ** Counters *)

Lemma inv_within_quota cfg d :
  1 <= bansPhase2 cfg -> pick_inv d -> ban_inv cfg d -> within_quota cfg d.
Proof.
  intros HB (_ & _ & Hpk) Hb.
  destruct d as [ph cp bs ps l1 l2 [a1 a2] [b1 b2] [x1 y1] [x2 y2] bb ts].
  unfold within_quota, ban_inv, triple, count in *. cbn in *.
  intros p [-> | ->]; lits; cbn;
    destruct ph; cbn in Hpk;
    repeat match goal with
      | H : _ /\ _ |- _ => destruct H
      | H : mkCounter _ _ = mkCounter _ _ |- _ => injection H as -> ->
      end;
    try lia;
    repeat match goal with
      | H : _ \/ _ |- _ => destruct H as [H | H]
      | H : (_, _, _) = (_, _, _) |- _ => injection H as <- <- <-
      | H : False |- _ => contradiction
      end; lia.
Qed.

Lemma bump_increment (b : bool) n c :
  n = 1 \/ n = 2 ->
  (if b then increment n c else c) = bump b n c.
Proof.
  unfold bump, increment. destruct c as [x y].
  intros [-> | ->]; destruct b; lits; cbn; f_equal; lia.
Qed.

Lemma ban_counters user c sv :
  succeeds (on_draft_ban user c sv) ->
  exists n d d',
    actor_number sv user = Some n
    /\ currentDraftState sv = Some d
    /\ currentDraftState (fst (on_draft_ban user c sv)) = Some d'
    /\ currentPhase1BanCount d'
       = bump (Phase_eqb (phase d) ban1) n (currentPhase1BanCount d)
    /\ currentPhase2BanCount d'
       = bump (Phase_eqb (phase d) ban2) n (currentPhase2BanCount d)
    /\ currentPick1Count d' = currentPick1Count d
    /\ currentPick2Count d' = currentPick2Count d.
Proof.
  intros H.
  destruct (ban_result _ _ _ H)
    as (n & d & Ha & Hn & Hd & Hcp & Hph & _ & _ & _ & Hres).
  exists n, d. eexists. split; [exact Ha|]. split; [exact Hd|].
  split; [exact Hres|].
  destruct (record_ban_fields n c d)
    as (_ & _ & _ & _ & _ & _ & Rb1 & Rb2 & Rp1 & Rp2 & _).
  destruct (advance_frame (draftConfig sv) (record_ban n c d))
    as (_ & _ & _ & _ & -> & -> & -> & -> & _).
  rewrite Rb1, Rb2, Rp1, Rp2.
  rewrite <- !bump_increment by assumption.
  destruct Hph as [-> | ->]; cbn; auto.
Qed.

Lemma pick_counters user c sv :
  succeeds (on_draft_pick user c sv) ->
  exists n d d',
    actor_number sv user = Some n
    /\ currentDraftState sv = Some d
    /\ currentDraftState (fst (on_draft_pick user c sv)) = Some d'
    /\ currentPick1Count d'
       = bump (Phase_eqb (phase d) pick1) n (currentPick1Count d)
    /\ currentPick2Count d'
       = bump (Phase_eqb (phase d) pick2) n (currentPick2Count d)
    /\ currentPhase1BanCount d' = currentPhase1BanCount d
    /\ currentPhase2BanCount d' = currentPhase2BanCount d.
Proof.
  intros H.
  destruct (pick_result _ _ _ H)
    as (n & d & Ha & Hn & Hd & Hcp & Hph & _ & _ & _ & _ & Hres).
  exists n, d. eexists. split; [exact Ha|]. split; [exact Hd|].
  split; [exact Hres|].
  destruct (record_pick_fields n c d)
    as (_ & _ & _ & _ & _ & _ & Rb1 & Rb2 & Rp1 & Rp2 & _).
  destruct (advance_frame (draftConfig sv) (record_pick n c d))
    as (_ & _ & _ & _ & -> & -> & -> & -> & _).
  rewrite Rb1, Rb2, Rp1, Rp2.
  rewrite <- !bump_increment by assumption.
  destruct Hph as [-> | ->]; cbn; auto.
Qed.

(** A message that is not an accepted ban or pick leaves the session as it
    is, discards it or replaces it by a fresh one. *)
Lemma other_messages sv e :
  snd (handle e sv) <> Emit "draft:updated" ->
  currentDraftState (next sv e) = currentDraftState sv
  \/ currentDraftState (next sv e) = None
  \/ exists now, currentDraftState (next sv e) = Some (initialDraftState now).
Proof.
  unfold next. destruct e as [sock u slot|u|sock u|u p|u now|u c|u c|u]; cbn;
    intros Hne.
  - left. unfold on_room_join. destruct u; auto.
    destruct (String.eqb slot "player1");
      [destruct (room_player1 _); [destruct (negb _)|]; auto|].
    destruct (String.eqb slot "player2");
      [destruct (room_player2 _); [destruct (negb _)|]; auto|auto].
  - left. unfold on_room_leave. destruct u; auto.
    destruct (JsId_eqb _ _); auto. destruct (JsId_eqb _ _); auto.
  - left. unfold on_disconnect. destruct u; auto.
    destruct (seat_has_socket _ _); auto.
    destruct (seat_has_socket _ _); auto.
  - left. unfold on_config_update. destruct u; auto.
    destruct (negb _ && negb _); auto.
  - unfold on_draft_start. destruct u; auto.
    destruct (room_player1 _); auto. destruct (room_player2 _); auto.
    right; right. now exists now.
  - destruct (ban_fst u c sv) as [-> | H]; auto. contradiction.
  - destruct (pick_fst u c sv) as [-> | H]; auto. contradiction.
  - unfold on_draft_reset. destruct u; auto.
Qed.

(** C5 as stated fails: with bansPhase1 = 0 player 1 still opens phase ban1
    and must ban once, so their phase-1 ban count becomes 1 under a quota
    of 0.  The configuration can also be rewritten while a session lasts,
    which leaves counters above a quota that was lowered. *)
Lemma counters_exceed_zero_quota :
  let cfg := mkConfig 0 1 0 1 in
  let sv := run seated_zero [draft_start alice 0; draft_ban alice "A"] in
  (0 <= bansPhase1 cfg /\ 0 <= bansPhase2 cfg /\ 0 <= balanceBans cfg)
  /\ session_under cfg sv
  /\ need_ban1 cfg 1 = 0
  /\ (exists d,
        currentDraftState sv = Some d
        /\ player1 (currentPhase1BanCount d) = 1
        /\ ~ within_quota cfg d)
  /\ reachable lowered
  /\ draftConfig lowered = cfg
  /\ option_map currentPhase1BanCount (currentDraftState lowered)
     = Some (mkCounter 1 1).
Proof.
  cbv zeta. split; [cbn; lia|]. split; [|split; [reflexivity|split]].
  - apply (session_next _ (fst (on_draft_start alice 0 seated_zero))
             (draft_ban alice "A")); [|reflexivity].
    now apply session_started.
  - eexists. split; [vm_compute; reflexivity|]. split; [reflexivity|].
    intros H. destruct (H 1 (or_introl eq_refl)) as [H1 _].
    vm_compute in H1. now apply H1.
  - split; [|split; vm_compute; reflexivity].
    apply reachable_run, reachable_run, reachable_init.
Qed.

(** C5, amended.  In a session started under a configuration that stays
    the same while the session lasts, with bansPhase1 and balanceBans at
    least 0, a phase-1 quota of at least 1 for player 1 and bansPhase2 at
    least 1, no counter exceeds its quota: phase-1 ban count at most
    bansPhase1 (plus balanceBans for the balance-ban player), phase-2 ban
    count at most bansPhase2, each pick count at most 3.  A successful ban
    or pick adds one to the counter of its phase for the player who acted
    and leaves the other counters as they are; any other message leaves
    the session as it is, discards it or starts a fresh one. *)
Theorem counters_within_quota :
  (forall cfg sv d,
     0 <= bansPhase1 cfg -> 0 <= balanceBans cfg ->
     1 <= need_ban1 cfg 1 -> 1 <= bansPhase2 cfg ->
     session_under cfg sv -> currentDraftState sv = Some d ->
     within_quota cfg d)
  /\ (forall user c sv,
        succeeds (on_draft_ban user c sv) ->
        exists n d d',
          actor_number sv user = Some n
          /\ currentDraftState sv = Some d
          /\ currentDraftState (fst (on_draft_ban user c sv)) = Some d'
          /\ currentPhase1BanCount d'
             = bump (Phase_eqb (phase d) ban1) n (currentPhase1BanCount d)
          /\ currentPhase2BanCount d'
             = bump (Phase_eqb (phase d) ban2) n (currentPhase2BanCount d)
          /\ currentPick1Count d' = currentPick1Count d
          /\ currentPick2Count d' = currentPick2Count d)
  /\ (forall user c sv,
        succeeds (on_draft_pick user c sv) ->
        exists n d d',
          actor_number sv user = Some n
          /\ currentDraftState sv = Some d
          /\ currentDraftState (fst (on_draft_pick user c sv)) = Some d'
          /\ currentPick1Count d'
             = bump (Phase_eqb (phase d) pick1) n (currentPick1Count d)
          /\ currentPick2Count d'
             = bump (Phase_eqb (phase d) pick2) n (currentPick2Count d)
          /\ currentPhase1BanCount d' = currentPhase1BanCount d
          /\ currentPhase2BanCount d' = currentPhase2BanCount d)
  /\ (forall sv e,
        snd (handle e sv) <> Emit "draft:updated" ->
        currentDraftState (next sv e) = currentDraftState sv
        \/ currentDraftState (next sv e) = None
        \/ exists now,
             currentDraftState (next sv e) = Some (initialDraftState now)).
Proof.
  split; [|split; [exact ban_counters|split;
                   [exact pick_counters|exact other_messages]]].
  intros cfg sv d H1 H2 H3 H4 Hs Hd.
  apply inv_within_quota; auto.
  - exact (session_under_pick_inv cfg sv Hs d Hd).
  - apply (session_under_ban_inv cfg H3) with (sv := sv); auto.
    unfold need_ban1. destruct (2 =? balanceBansPlayer cfg); lia.
Qed.

Lemma counters_within_quota_witness :
  let cfg := mkConfig 1 1 1 1 in
  let sv := run (fst (on_draft_start alice 0 seated_balance))
              [draft_ban alice "A"; draft_ban bob "B"; draft_ban alice "C";
               draft_pick alice "C1"] in
  session_under cfg sv
  /\ option_map currentPhase1BanCount (currentDraftState sv)
     = Some (mkCounter 2 1)
  /\ exists d, currentDraftState sv = Some d /\ within_quota cfg d.
Proof.
  cbv zeta.
  match goal with |- session_under _ ?s /\ _ => set (sv := s) end.
  assert (Hs : session_under (mkConfig 1 1 1 1) sv).
  { unfold sv. cbn [run fold_left].
    repeat (apply session_next; [|vm_compute; reflexivity]).
    apply session_started; vm_compute; reflexivity. }
  split; [exact Hs|]. split; [vm_compute; reflexivity|].
  let o := eval vm_compute in (currentDraftState sv) in
  match o with
  | Some ?d =>
      exists d; split; [vm_compute; reflexivity|];
      apply (proj1 counters_within_quota (mkConfig 1 1 1 1) sv d);
      [cbn; lia|cbn; lia|vm_compute; discriminate|cbn; lia|exact Hs
      |vm_compute; reflexivity]
  end.
Defined.

(** ** Item ids *)

Lemma NoDup_snoc (l : list string) c : NoDup l -> ~ In c l -> NoDup (l ++ [c]).
Proof.
  induction 1 as [|x l Hx Hl IH]; cbn; intros Hc.
  - constructor; [tauto|constructor].
  - constructor.
    + rewrite in_app_iff. cbn. intros [H | [H | []]]; [tauto|].
      apply Hc. now left.
    + apply IH. tauto.
Qed.

(** Neither sequence ever holds the same item id twice. *)
Lemma reachable_distinct sv : reachable sv -> on_session distinct_inv sv.
Proof.
  induction 1 as [|sv e Hr IH]; intros d' Hd'.
  - discriminate.
  - destruct (next_session sv e)
      as [E | [E | [(now & E) | [(n & c & d & Hd & _ & _ & _ & Hc & E)
                               | (n & c & d & Hd & _ & _ & _ & _ & Hc & E)]]]];
      rewrite E in Hd'.
    + auto.
    + discriminate.
    + injection Hd' as <-. split; constructor.
    + injection Hd' as <-. destruct (IH d Hd) as [Hb Hp].
      destruct (record_ban_fields n c d) as (_ & _ & Rb & Rp & _).
      destruct (advance_frame (draftConfig sv) (record_ban n c d))
        as (Fb & Fp & _).
      unfold distinct_inv, banned_ids, picked_ids in *.
      rewrite Fb, Fp, Rb, Rp, map_app. split; [|exact Hp].
      now apply NoDup_snoc.
    + injection Hd' as <-. destruct (IH d Hd) as [Hb Hp].
      destruct (record_pick_fields n c d) as (_ & _ & Rb & Rp & _).
      destruct (advance_frame (draftConfig sv) (record_pick n c d))
        as (Fb & Fp & _).
      unfold distinct_inv, banned_ids, picked_ids in *.
      rewrite Fb, Fp, Rb, Rp, map_app. split; [exact Hb|].
      now apply NoDup_snoc.
Qed.

(** C6 (no item id is both banned and picked, none occurs twice) does not
    hold of the handlers: [draft:ban] checks the item against [bans] only,
    so in phase ban2 an item picked in phase pick1 can be banned.  After a
    draft under the default configuration in which player 1 picked "C1",
    player 1's phase-2 ban of "C1" is accepted and "C1" is in both
    sequences. *)
Theorem banned_and_picked :
  let before := run seated first_half in
  let after := next before (draft_ban alice "C1") in
  reachable after
  /\ option_map picked_ids (currentDraftState before)
     = Some ["C1"; "C2"; "C3"; "C4"; "C5"; "C6"]
  /\ option_map banned_ids (currentDraftState before) = Some ["A"; "B"]
  /\ snd (handle (draft_ban alice "C1") before) = Emit "draft:updated"
  /\ option_map banned_ids (currentDraftState after) = Some ["A"; "B"; "C1"]
  /\ option_map picked_ids (currentDraftState after)
     = Some ["C1"; "C2"; "C3"; "C4"; "C5"; "C6"]
  /\ exists d,
       currentDraftState after = Some d
       /\ In "C1" (banned_ids d) /\ In "C1" (picked_ids d).
Proof.
  cbv zeta. split.
  - apply reachable_next, reachable_run, reachable_run, reachable_init.
  - repeat (split; [vm_compute; reflexivity|]).
    eexists. split; [vm_compute; reflexivity|].
    split; vm_compute; tauto.
Qed.

(** C7. For every successful ban or pick, the phase after the operation is
    the phase before it or its immediate successor in the order ban1,
    pick1, ban2, pick2, complete: never backward, never skipping. *)
Theorem phase_moves_forward :
  forall user c sv d,
    currentDraftState sv = Some d ->
    (succeeds (on_draft_ban user c sv) ->
     exists d',
       currentDraftState (fst (on_draft_ban user c sv)) = Some d'
       /\ (phase d' = phase d \/ phase d' = successor (phase d))
       /\ (phase_index (phase d') = phase_index (phase d)
           \/ phase_index (phase d') = phase_index (phase d) + 1))
    /\ (succeeds (on_draft_pick user c sv) ->
        exists d',
          currentDraftState (fst (on_draft_pick user c sv)) = Some d'
          /\ (phase d' = phase d \/ phase d' = successor (phase d))
          /\ (phase_index (phase d') = phase_index (phase d)
              \/ phase_index (phase d') = phase_index (phase d) + 1)).
Proof.
  intros user c sv d Hd. split; intros H.
  - destruct (ban_result _ _ _ H)
      as (n & d0 & _ & _ & Hd0 & _ & _ & _ & _ & _ & Hres).
    rewrite Hd in Hd0. injection Hd0 as <-.
    eexists. split; [exact Hres|].
    destruct (record_ban_fields n c d) as (Rph & _).
    destruct (advance_phase (draftConfig sv) (record_ban n c d))
      as [E | [E Hne]]; rewrite E, Rph in *; auto.
    split; auto. right. destruct (phase d); cbn; congruence.
  - destruct (pick_result _ _ _ H)
      as (n & d0 & _ & _ & Hd0 & _ & _ & _ & _ & _ & _ & Hres).
    rewrite Hd in Hd0. injection Hd0 as <-.
    eexists. split; [exact Hres|].
    destruct (record_pick_fields n c d) as (Rph & _).
    destruct (advance_phase (draftConfig sv) (record_pick n c d))
      as [E | [E Hne]]; rewrite E, Rph in *; auto.
    split; auto. right. destruct (phase d); cbn; congruence.
Qed.

Lemma phase_moves_forward_witness :
  let sv := run seated [draft_start alice 0; draft_ban alice "A"] in
  succeeds (on_draft_ban bob "B" sv)
  /\ exists d',
       currentDraftState (fst (on_draft_ban bob "B" sv)) = Some d'
       /\ (phase d' = ban1 \/ phase d' = pick1)
       /\ (phase_index (phase d') = 0 \/ phase_index (phase d') = 0 + 1).
Proof.
  cbv zeta.
  match goal with |- succeeds (_ _ _ ?s) /\ _ => set (sv := s) end.
  assert (Hs : succeeds (on_draft_ban bob "B" sv)) by reflexivity.
  split; [exact Hs|].
  let o := eval vm_compute in (currentDraftState sv) in
  match o with
  | Some ?d => exact (proj1 (phase_moves_forward bob "B" sv d eq_refl) Hs)
  end.
Defined.

(** C9. Every validation failure of a ban or pick attempt leaves the
    session unchanged: the server after a rejected attempt is the server
    before it. *)
Theorem failed_attempt_changes_nothing :
  forall user c sv e,
    (fails_with e (on_draft_ban user c sv) ->
     fst (on_draft_ban user c sv) = sv)
    /\ (fails_with e (on_draft_pick user c sv) ->
        fst (on_draft_pick user c sv) = sv).
Proof.
  intros user c sv e. unfold fails_with. split; intros H.
  - destruct (ban_fst user c sv) as [E | Hs]; [exact E|].
    unfold succeeds in Hs. congruence.
  - destruct (pick_fst user c sv) as [E | Hs]; [exact E|].
    unfold succeeds in Hs. congruence.
Qed.

Lemma failed_attempt_changes_nothing_witness :
  let sv := run seated [draft_start alice 0; draft_ban alice "A"] in
  (fails_with ItemAlreadyBanned (on_draft_ban bob "A" sv)
   /\ fails_with WrongPhaseKind (on_draft_pick bob "A" sv))
  /\ fst (on_draft_ban bob "A" sv) = sv
  /\ fst (on_draft_pick bob "A" sv) = sv.
Proof.
  cbv zeta. split; [split; reflexivity|]. split.
  - apply (proj1 (failed_attempt_changes_nothing bob "A" _ ItemAlreadyBanned)).
    reflexivity.
  - apply (proj2 (failed_attempt_changes_nothing bob "A" _ WrongPhaseKind)).
    reflexivity.
Defined.

(** C10. A successful ban leaves the picks sequence, player1Picks,
    player2Picks, both pick counters and balanceBansUsed unchanged; a
    successful pick leaves the bans sequence, both ban counters and
    balanceBansUsed unchanged; balanceBansUsed is 0 in every session the
    server can reach. *)
Theorem ban_and_pick_frames :
  (forall user c sv,
     succeeds (on_draft_ban user c sv) ->
     exists d d',
       currentDraftState sv = Some d
       /\ currentDraftState (fst (on_draft_ban user c sv)) = Some d'
       /\ picks d' = picks d
       /\ player1Picks d' = player1Picks d
       /\ player2Picks d' = player2Picks d
       /\ currentPick1Count d' = currentPick1Count d
       /\ currentPick2Count d' = currentPick2Count d
       /\ balanceBansUsed d' = balanceBansUsed d)
  /\ (forall user c sv,
        succeeds (on_draft_pick user c sv) ->
        exists d d',
          currentDraftState sv = Some d
          /\ currentDraftState (fst (on_draft_pick user c sv)) = Some d'
          /\ bans d' = bans d
          /\ currentPhase1BanCount d' = currentPhase1BanCount d
          /\ currentPhase2BanCount d' = currentPhase2BanCount d
          /\ balanceBansUsed d' = balanceBansUsed d)
  /\ (forall sv d,
        reachable sv -> currentDraftState sv = Some d ->
        balanceBansUsed d = 0).
Proof.
  split; [|split].
  - intros user c sv H.
    destruct (ban_result _ _ _ H)
      as (n & d & _ & _ & Hd & _ & _ & _ & _ & _ & Hres).
    exists d. eexists. split; [exact Hd|]. split; [exact Hres|].
    destruct (record_ban_fields n c d)
      as (_ & _ & _ & Rp & R1 & R2 & _ & _ & Rp1 & Rp2 & Rbb & _).
    destruct (advance_frame (draftConfig sv) (record_ban n c d))
      as (_ & -> & -> & -> & _ & _ & -> & -> & -> & _).
    auto 10.
  - intros user c sv H.
    destruct (pick_result _ _ _ H)
      as (n & d & _ & _ & Hd & _ & _ & _ & _ & _ & _ & Hres).
    exists d. eexists. split; [exact Hd|]. split; [exact Hres|].
    destruct (record_pick_fields n c d)
      as (_ & _ & Rb & _ & _ & _ & Rb1 & Rb2 & _ & _ & Rbb & _).
    destruct (advance_frame (draftConfig sv) (record_pick n c d))
      as (-> & _ & _ & _ & -> & -> & _ & _ & -> & _).
    auto 10.
  - intros sv d Hr Hd.
    destruct (reachable_pick_inv sv Hr d Hd) as (_ & Hbb & _). exact Hbb.
Qed.

Lemma ban_and_pick_frames_witness :
  let sv := run seated (first_half ++ [draft_ban alice "X"]) in
  succeeds (on_draft_ban bob "Y" sv)
  /\ (exists d d',
        currentDraftState sv = Some d
        /\ currentDraftState (fst (on_draft_ban bob "Y" sv)) = Some d'
        /\ picks d' = picks d
        /\ player1Picks d' = player1Picks d
        /\ player2Picks d' = player2Picks d
        /\ currentPick1Count d' = currentPick1Count d
        /\ currentPick2Count d' = currentPick2Count d
        /\ balanceBansUsed d' = balanceBansUsed d)
  /\ option_map balanceBansUsed (currentDraftState sv) = Some 0.
Proof.
  cbv zeta. split; [reflexivity|]. split; [|reflexivity].
  apply (proj1 ban_and_pick_frames). reflexivity.
Defined.

(** ** Validation *)

Lemma JsId_eqb_eq a b : JsId_eqb a b = true <-> a = b.
Proof.
  destruct a as [|s], b as [|t]; cbn; split; intros H;
    try discriminate; try reflexivity.
  - apply String.eqb_eq in H. now subst.
  - injection H as ->. apply String.eqb_refl.
Qed.

(** A defined Discord id has a player number exactly when a seat holds
    it. *)
Lemma player_number_none sv s :
  player_number sv (mkUser (jsid s)) = None
  <-> (forall seat,
         room_player1 (draftRoom sv) = Some seat
         \/ room_player2 (draftRoom sv) = Some seat ->
         seat_discordId seat <> jsid s).
Proof.
  unfold player_number, getPlayerNumber. cbn.
  split.
  - intros H seat Hseat Heq.
    destruct (JsId_eqb (seat_id (room_player1 (draftRoom sv))) (jsid s))
      eqn:E1; [discriminate|].
    destruct (JsId_eqb (seat_id (room_player2 (draftRoom sv))) (jsid s))
      eqn:E2; [discriminate|].
    destruct Hseat as [Hs | Hs]; rewrite Hs in *; cbn in *;
      rewrite Heq in *; cbn in *; rewrite String.eqb_refl in *; discriminate.
  - intros H.
    destruct (JsId_eqb (seat_id (room_player1 (draftRoom sv))) (jsid s))
      eqn:E1.
    { apply JsId_eqb_eq in E1.
      destruct (room_player1 (draftRoom sv)) as [s1|]; [|discriminate].
      exfalso. apply (H s1); auto. }
    destruct (JsId_eqb (seat_id (room_player2 (draftRoom sv))) (jsid s))
      eqn:E2.
    { apply JsId_eqb_eq in E2.
      destruct (room_player2 (draftRoom sv)) as [s2|]; [|discriminate].
      exfalso. apply (H s2); auto. }
    reflexivity.
Qed.

(** The checks of [draft:ban], in the order the handler makes them. *)
Lemma ban_checks u c sv :
  let r := on_draft_ban (Some u) c sv in
  (player_number sv u = None -> fails_with NotAPlayer r)
  /\ (forall n,
        player_number sv u = Some n ->
        (currentDraftState sv = None -> fails_with NoActiveSession r)
        /\ (forall d,
              currentDraftState sv = Some d ->
              (currentPlayer d <> n -> fails_with NotYourTurn r)
              /\ (currentPlayer d = n -> ~ is_ban_phase (phase d) ->
                  fails_with WrongPhaseKind r)
              /\ (currentPlayer d = n -> is_ban_phase (phase d) ->
                  In c (banned_ids d) -> fails_with ItemAlreadyBanned r)
              /\ (currentPlayer d = n -> is_ban_phase (phase d) ->
                  ~ In c (banned_ids d) -> succeeds r))).
Proof.
  unfold fails_with, succeeds, on_draft_ban, player_number. cbv zeta.
  destruct (getPlayerNumber sv (discordId u)) as [m|].
  2: { split; [reflexivity|discriminate]. }
  split; [discriminate|]. intros n [= ->].
  destruct (currentDraftState sv) as [d0|].
  2: { split; [reflexivity|discriminate]. }
  split; [discriminate|]. intros d [= ->].
  destruct (Z.eqb_spec (currentPlayer d) n) as [Hcp|Hcp]; cbn [negb].
  2: { repeat split; intros; try reflexivity; contradiction. }
  pose proof (startsWith_ban (phase d)) as Hb.
  destruct (startsWith (phase d) "ban"); cbn [negb].
  2: { repeat split; intros; try reflexivity; try contradiction;
       exfalso; assert (false = true) by (apply Hb; assumption);
       discriminate. }
  pose proof (existsb_ban_ids c (bans d)) as He.
  fold (banned_ids d) in He.
  destruct (existsb _ (bans d)); cbn.
  - repeat split; intros; try reflexivity; try contradiction;
      exfalso; try (apply H0; apply Hb; reflexivity);
      try (apply H1; apply He; reflexivity).
  - repeat split; intros; try reflexivity; try contradiction;
      exfalso; try (apply H0; apply Hb; reflexivity).
    assert (false = true) by (apply He; assumption). discriminate.
Qed.

(** C8 as stated fails: in phase complete a ban or pick by the seated
    player whose turn it is not is rejected with NotYourTurn, not
    WrongPhaseKind; after a reset a ban by someone who holds no seat is
    rejected with NotAPlayer, not NoActiveSession; and a message from a
    socket without a registered user gets no error at all. *)
Lemma complete_phase_not_your_turn :
  let over := run seated (first_half ++ second_half) in
  let cleared := next over (draft_reset alice) in
  phase_turn over = Some (complete, 1)
  /\ actor_number over bob = Some 2
  /\ snd (on_draft_ban bob "Z" over) = Error NotYourTurn
  /\ snd (on_draft_pick bob "Z" over) = Error NotYourTurn
  /\ ~ fails_with WrongPhaseKind (on_draft_ban bob "Z" over)
  /\ currentDraftState cleared = None
  /\ snd (on_draft_ban carol "Z" cleared) = Error NotAPlayer
  /\ ~ fails_with NoActiveSession (on_draft_ban carol "Z" cleared)
  /\ snd (on_draft_ban None "Z" over) = Ignored.
Proof.
  cbv zeta. unfold fails_with.
  repeat split; try (vm_compute; reflexivity); vm_compute; discriminate.
Qed.

(** C8, amended.  A ban attempt by a registered user a on item i is
    rejected with the first error that applies in this order: NotAPlayer
    if a holds neither seat; NoActiveSession if there is no session;
    NotYourTurn if currentPlayer differs from a's player number;
    WrongPhaseKind if the phase is not ban1 or ban2; ItemAlreadyBanned if i
    is in bans; if none applies the ban succeeds.  After a reset a ban or
    pick by a seated player fails with NoActiveSession; while the phase is
    complete a ban or pick by the seated player whose number is
    currentPlayer fails with WrongPhaseKind.  A message from a socket
    without a registered user is dropped without an error. *)
Theorem ban_validation_order :
  (forall u c sv,
     let r := on_draft_ban (Some u) c sv in
     (player_number sv u = None -> fails_with NotAPlayer r)
     /\ (forall n,
           player_number sv u = Some n ->
           (currentDraftState sv = None -> fails_with NoActiveSession r)
           /\ (forall d,
                 currentDraftState sv = Some d ->
                 (currentPlayer d <> n -> fails_with NotYourTurn r)
                 /\ (currentPlayer d = n -> ~ is_ban_phase (phase d) ->
                     fails_with WrongPhaseKind r)
                 /\ (currentPlayer d = n -> is_ban_phase (phase d) ->
                     In c (banned_ids d) -> fails_with ItemAlreadyBanned r)
                 /\ (currentPlayer d = n -> is_ban_phase (phase d) ->
                     ~ In c (banned_ids d) -> succeeds r))))
  /\ (forall sv s,
        player_number sv (mkUser (jsid s)) = None
        <-> (forall seat,
               room_player1 (draftRoom sv) = Some seat
               \/ room_player2 (draftRoom sv) = Some seat ->
               seat_discordId seat <> jsid s))
  /\ (forall u0 sv u c n,
        let sv' := fst (on_draft_reset (Some u0) sv) in
        player_number sv' u = Some n ->
        fails_with NoActiveSession (on_draft_ban (Some u) c sv')
        /\ fails_with NoActiveSession (on_draft_pick (Some u) c sv'))
  /\ (forall sv d u c,
        currentDraftState sv = Some d -> phase d = complete ->
        player_number sv u = Some (currentPlayer d) ->
        fails_with WrongPhaseKind (on_draft_ban (Some u) c sv)
        /\ fails_with WrongPhaseKind (on_draft_pick (Some u) c sv))
  /\ (forall c sv,
        on_draft_ban None c sv = (sv, Ignored)
        /\ on_draft_pick None c sv = (sv, Ignored)).
Proof.
  split; [exact ban_checks|]. split; [exact player_number_none|].
  split; [|split].
  - intros u0 sv u c n sv' Hn. unfold player_number in Hn.
    unfold fails_with, on_draft_ban, on_draft_pick. rewrite Hn.
    split; reflexivity.
  - intros sv d u c Hd Hph Hn. unfold player_number in Hn.
    unfold fails_with, on_draft_ban, on_draft_pick.
    rewrite Hn, Hd, Hph, Z.eqb_refl. split; reflexivity.
  - intros c sv. split; reflexivity.
Qed.

Lemma ban_validation_order_witness :
  let over := run seated (first_half ++ second_half) in
  (phase_turn over = Some (complete, 1) /\ actor_number over alice = Some 1)
  /\ fails_with WrongPhaseKind (on_draft_ban alice "Z" over)
  /\ fails_with WrongPhaseKind (on_draft_pick alice "Z" over).
Proof.
  cbv zeta. split; [split; vm_compute; reflexivity|].
  set (over := run seated (first_half ++ second_half)).
  let o := eval vm_compute in (currentDraftState over) in
  match o with
  | Some ?d =>
      apply (proj1 (proj2 (proj2 (proj2 ban_validation_order)))
               over d (mkUser (jsid "alice")) "Z");
      vm_compute; reflexivity
  end.
Defined.

(* ================================================================== *)
(** * Further properties of the handlers *)

(** ** Proving invariants of the session *)

(** A property of the fresh session that every accepted ban and pick
    keeps holds in every session the server can reach. *)
Lemma reachable_invariant (P : DraftState -> Prop) :
  (forall now, P (initialDraftState now)) ->
  (forall cfg n c d,
     P d -> pick_inv d -> n = 1 \/ n = 2 -> currentPlayer d = n ->
     is_ban_phase (phase d) -> ~ In c (banned_ids d) ->
     P (advance cfg (record_ban n c d))) ->
  (forall cfg n c d,
     P d -> pick_inv d -> n = 1 \/ n = 2 -> currentPlayer d = n ->
     is_pick_phase (phase d) ->
     ~ In c (banned_ids d) -> ~ In c (picked_ids d) ->
     P (advance cfg (record_pick n c d))) ->
  forall sv, reachable sv -> on_session P sv.
Proof.
  intros Hinit Hban Hpick sv Hr.
  induction Hr as [|sv e Hr IH]; intros d' Hd'.
  - discriminate.
  - pose proof (reachable_pick_inv sv Hr) as Hpk.
    destruct (next_session sv e)
      as [E | [E | [(now & E) | [(n & c & d & Hd & Hcp & Hn & Hph & Hc & E)
                               | (n & c & d & Hd & Hcp & Hn & Hph & Hc & Hc' & E)]]]];
      rewrite E in Hd'.
    + auto.
    + discriminate.
    + injection Hd' as <-. apply Hinit.
    + injection Hd' as <-. apply Hban; auto.
    + injection Hd' as <-. apply Hpick; auto.
Qed.

(** The same for a session run under a fixed configuration. *)
Lemma session_under_invariant cfg (P : DraftState -> Prop) :
  (forall now, P (initialDraftState now)) ->
  (forall n c d,
     P d -> pick_inv d -> n = 1 \/ n = 2 -> currentPlayer d = n ->
     is_ban_phase (phase d) -> ~ In c (banned_ids d) ->
     P (advance cfg (record_ban n c d))) ->
  (forall n c d,
     P d -> pick_inv d -> n = 1 \/ n = 2 -> currentPlayer d = n ->
     is_pick_phase (phase d) ->
     ~ In c (banned_ids d) -> ~ In c (picked_ids d) ->
     P (advance cfg (record_pick n c d))) ->
  forall sv, session_under cfg sv -> on_session P sv.
Proof.
  intros Hinit Hban Hpick sv Hr.
  induction Hr as [sv user now Hc Hs|sv e Hr IH Hc]; intros d' Hd'.
  - destruct (start_result _ _ _ Hs) as (_ & _ & E).
    rewrite E in Hd'. injection Hd' as <-. apply Hinit.
  - pose proof (session_under_pick_inv _ _ Hr) as Hpk.
    pose proof (session_under_config _ _ Hr) as Hcfg.
    destruct (next_session sv e)
      as [E | [E | [(now & E) | [(n & c & d & Hd & Hcp & Hn & Hph & Hc0 & E)
                               | (n & c & d & Hd & Hcp & Hn & Hph & Hc0 & Hc' & E)]]]];
      rewrite E in Hd'.
    + auto.
    + discriminate.
    + injection Hd' as <-. apply Hinit.
    + injection Hd' as <-. rewrite Hcfg. apply Hban; auto.
    + injection Hd' as <-. rewrite Hcfg. apply Hpick; auto.
Qed.

(** ** Records and counters *)

Lemma bans_of_snoc l p bs b :
  bans_of l p (bs ++ [b])
  = bans_of l p bs
    + (if BanLabel_eqb (ban_phase b) l && (bannedBy b =? p) then 1 else 0).
Proof.
  unfold bans_of. rewrite filter_app, length_app. cbn.
  destruct (BanLabel_eqb (ban_phase b) l && (bannedBy b =? p)); cbn; lia.
Qed.

Lemma picks_of_snoc p ps k :
  picks_of p (ps ++ [k])
  = picks_of p ps ++ (if pickedBy k =? p then [pick_characterId k] else []).
Proof.
  unfold picks_of. rewrite filter_app, map_app. cbn.
  destruct (pickedBy k =? p); reflexivity.
Qed.

Lemma orders_upto_S n : orders_upto (S n) = orders_upto n ++ [Z.of_nat n + 1].
Proof. unfold orders_upto. rewrite seq_S, map_app. reflexivity. Qed.

Lemma record_inv_initial now : record_inv (initialDraftState now).
Proof. unfold record_inv; cbn. repeat split; reflexivity. Qed.

(** Reduce field reads of an explicit record and of the field updates. *)
Ltac fields :=
  cbn [phase currentPlayer bans picks player1Picks player2Picks
       currentPhase1BanCount currentPhase2BanCount currentPick1Count
       currentPick2Count balanceBansUsed timerStartedAt player1 player2
       set_phase set_currentPlayer set_bans set_picks set_player1Picks
       set_player2Picks set_currentPhase1BanCount set_currentPhase2BanCount
       set_currentPick1Count set_currentPick2Count Phase_eqb
       ban_characterId ban_phase bannedBy pick_characterId pickedBy order
       BanLabel_eqb andb] in *.

Lemma record_inv_ban cfg n c d :
  record_inv d -> n = 1 \/ n = 2 -> is_ban_phase (phase d) ->
  record_inv (advance cfg (record_ban n c d)).
Proof.
  intros H Hr Hph.
  destruct (advance_frame cfg (record_ban n c d))
    as (Fb & Fp & Fl1 & Fl2 & Fb1 & Fb2 & Fp1 & Fp2 & _).
  unfold record_inv.
  rewrite Fb, Fp, Fl1, Fl2, Fb1, Fb2, Fp1, Fp2.
  clear Fb Fp Fl1 Fl2 Fb1 Fb2 Fp1 Fp2.
  destruct d as [ph cp bs ps l1 l2 [a1 a2] [b1 b2] [x1 y1] [x2 y2] bb ts].
  unfold record_inv, total in *. unfold record_ban, increment.
  fields.
  destruct H as ((B1 & B2 & B3 & B4) & Lb & Lp & Hl & Hn & Ho).
  destruct Hph as [-> | ->]; destruct Hr as [-> | ->]; fields; lits; fields;
    rewrite !bans_of_snoc, length_app; fields; lits;
    cbn [List.length]; repeat split; auto; try tauto; lia.
Qed.

Lemma record_inv_pick cfg n c d :
  record_inv d -> n = 1 \/ n = 2 -> is_pick_phase (phase d) ->
  record_inv (advance cfg (record_pick n c d)).
Proof.
  intros H Hr Hph.
  destruct (advance_frame cfg (record_pick n c d))
    as (Fb & Fp & Fl1 & Fl2 & Fb1 & Fb2 & Fp1 & Fp2 & _).
  unfold record_inv.
  rewrite Fb, Fp, Fl1, Fl2, Fb1, Fb2, Fp1, Fp2.
  clear Fb Fp Fl1 Fl2 Fb1 Fb2 Fp1 Fp2.
  destruct d as [ph cp bs ps l1 l2 [a1 a2] [b1 b2] [x1 y1] [x2 y2] bb ts].
  unfold record_inv, total in *. unfold record_pick, increment.
  fields.
  destruct H as (HB & Lb & Lp & (Hl1 & Hl2) & (Hn1 & Hn2) & Ho).
  assert (Hlen : List.length (ps ++ [mkPick c n (Z.of_nat (List.length ps) + 1)])
                 = S (List.length ps)) by (rewrite length_app; cbn; lia).
  destruct Hph as [-> | ->]; destruct Hr as [-> | ->]; fields; lits; fields;
    rewrite !picks_of_snoc, map_app, Hlen, orders_upto_S, <- Ho;
    fields; lits; rewrite ?app_nil_r, ?length_app; cbn [List.length map];
    fields; subst l1 l2; repeat split; auto; lia.
Qed.

(** The counters count the records, the derived pick lists are the picks
    of each player, and the picks are numbered 1, 2, 3, ... *)
Lemma reachable_record_inv sv : reachable sv -> on_session record_inv sv.
Proof.
  apply reachable_invariant.
  - apply record_inv_initial.
  - intros. now apply record_inv_ban.
  - intros. now apply record_inv_pick.
Qed.

(** ** Items that are both banned and picked *)

Lemma order_bounds ps k :
  map order ps = orders_upto (List.length ps) -> In k ps ->
  1 <= order k <= Z.of_nat (List.length ps).
Proof.
  intros Ho Hk. apply (in_map order) in Hk. rewrite Ho in Hk.
  unfold orders_upto in Hk. apply in_map_iff in Hk.
  destruct Hk as (i & <- & Hi). apply in_seq in Hi. lia.
Qed.

Lemma overlap_initial now :
  overlap_inv (initialDraftState now) /\ early_labels (initialDraftState now).
Proof. split; [intros b k []|intros _ b []]. Qed.

Lemma overlap_ban cfg n c d :
  record_inv d -> pick_inv d -> overlap_inv d /\ early_labels d ->
  is_ban_phase (phase d) ->
  let d' := advance cfg (record_ban n c d) in
  overlap_inv d' /\ early_labels d'.
Proof.
  intros Hrec (_ & _ & Hpk) [Hov Hearly] Hph d'.
  destruct (record_ban_fields n c d) as (Rph & _ & Rb & Rp & _).
  destruct (advance_frame cfg (record_ban n c d)) as (Fb & Fp & _).
  destruct Hrec as (_ & _ & Lp & _ & _ & Ho).
  split.
  - intros b k Hb Hk Hid. unfold d' in Hb, Hk.
    rewrite Fb, Rb in Hb. rewrite Fp, Rp in Hk.
    apply in_app_or in Hb. destruct Hb as [Hb | [<- | []]]; [eauto|].
    cbn in Hid |- *.
    pose proof (order_bounds _ _ Ho Hk) as Hbound.
    destruct Hph as [Hph | Hph]; rewrite Hph in *; cbn.
    + destruct Hpk as (E1 & E2 & _). rewrite E1, E2 in Lp. cbn in Lp. lia.
    + destruct Hpk as (E1 & E2). rewrite E1, E2 in Lp. cbn in Lp.
      split; [reflexivity|lia].
  - intros Hearly' b Hb. unfold d' in Hb, Hearly'. rewrite Fb, Rb in Hb.
    assert (Hd1 : phase d = ban1).
    { destruct (advance_phase cfg (record_ban n c d)) as [E | [E _]];
        rewrite E, ?Rph in Hearly';
        destruct Hph as [Hph | Hph]; rewrite Hph in *; auto;
        destruct Hearly'; discriminate. }
    apply in_app_or in Hb. destruct Hb as [Hb | [<- | []]].
    + apply Hearly; auto.
    + cbn. now rewrite Hd1.
Qed.

Lemma overlap_pick cfg n c d :
  overlap_inv d /\ early_labels d ->
  is_pick_phase (phase d) -> ~ In c (banned_ids d) ->
  let d' := advance cfg (record_pick n c d) in
  overlap_inv d' /\ early_labels d'.
Proof.
  intros [Hov Hearly] Hph Hc d'.
  destruct (record_pick_fields n c d) as (Rph & _ & Rb & Rp & _).
  destruct (advance_frame cfg (record_pick n c d)) as (Fb & Fp & _).
  split.
  - intros b k Hb Hk Hid. unfold d' in Hb, Hk.
    rewrite Fb, Rb in Hb. rewrite Fp, Rp in Hk.
    apply in_app_or in Hk. destruct Hk as [Hk | [<- | []]]; [eauto|].
    cbn in Hid. exfalso. apply Hc. unfold banned_ids.
    rewrite <- Hid. now apply in_map.
  - intros Hearly' b Hb. unfold d' in Hb, Hearly'. rewrite Fb, Rb in Hb.
    apply Hearly; auto.
    destruct (advance_phase cfg (record_pick n c d)) as [E | [E _]];
      rewrite E, ?Rph in Hearly';
      destruct Hph as [Hph | Hph]; rewrite Hph in *; auto;
      destruct Hearly'; discriminate.
Qed.

Lemma reachable_overlap sv :
  reachable sv ->
  on_session (fun d => record_inv d /\ overlap_inv d /\ early_labels d) sv.
Proof.
  apply reachable_invariant.
  - intros now. split; [apply record_inv_initial|apply overlap_initial].
  - intros cfg n c d (Hrec & Hov) Hpk Hn Hcp Hph Hc.
    split; [now apply record_inv_ban|now apply overlap_ban].
  - intros cfg n c d (Hrec & Hov) Hpk Hn Hcp Hph Hc Hc'.
    split; [now apply record_inv_pick|now apply overlap_pick].
Qed.

(** ** Quotas are met when a ban phase ends *)

Lemma quota_met_ban cfg n c d :
  quota_met cfg d -> is_ban_phase (phase d) -> currentPlayer d = n ->
  n = 1 \/ n = 2 ->
  quota_met cfg (advance cfg (record_ban n c d)).
Proof.
  intros Hq Hph Hcp Hn.
  destruct (record_ban_fields n c d)
    as (Rph & Rcp & _ & _ & _ & _ & Rb1 & Rb2 & _).
  destruct Hph as [Hph | Hph]; unfold quota_met in Hq; rewrite Hph in *;
    cbn [Phase_eqb] in *.
  - rewrite (advance_ban1 cfg _ n) by congruence.
    destruct (done _ _ 1 && done _ _ 2) eqn:Hdone.
    + unfold quota_met; cbn.
      apply andb_prop in Hdone. destruct Hdone as [D1 D2].
      unfold done, count in D1, D2. revert D1 D2. lits.
      rewrite !Z.leb_le. auto.
    + unfold quota_met; cbn. now rewrite Rph.
  - rewrite (advance_ban2 cfg _ n) by congruence.
    destruct (done _ _ 1 && done _ _ 2) eqn:Hdone.
    + unfold quota_met; cbn. rewrite Rb1. split; [exact Hq|].
      apply andb_prop in Hdone. destruct Hdone as [D1 D2].
      unfold done, count, need_ban2 in D1, D2. revert D1 D2. lits.
      rewrite !Z.leb_le. auto.
    + unfold quota_met; cbn. rewrite Rph, Rb1. exact Hq.
Qed.

Lemma quota_met_pick cfg n c d :
  quota_met cfg d -> is_pick_phase (phase d) ->
  quota_met cfg (advance cfg (record_pick n c d)).
Proof.
  intros Hq Hph.
  destruct (record_pick_fields n c d)
    as (Rph & Rcp & _ & _ & _ & _ & Rb1 & Rb2 & _).
  destruct Hph as [Hph | Hph]; unfold quota_met in Hq; rewrite Hph in *.
  - rewrite advance_pick1 by congruence.
    destruct (_ && _); [|destruct (pick1_table _)]; unfold quota_met; cbn;
      rewrite ?Rph, Rb1; exact Hq.
  - rewrite advance_pick2 by congruence.
    destruct (_ && _); [|destruct (pick2_table _)]; unfold quota_met; cbn;
      rewrite ?Rph, Rb1, Rb2; exact Hq.
Qed.

Lemma session_under_quota_met cfg sv :
  session_under cfg sv -> on_session (quota_met cfg) sv.
Proof.
  apply session_under_invariant.
  - intros now. exact I.
  - intros. now apply quota_met_ban.
  - intros. now apply quota_met_pick.
Qed.

Lemma session_under_record_inv cfg sv :
  session_under cfg sv -> on_session record_inv sv.
Proof.
  apply session_under_invariant.
  - apply record_inv_initial.
  - intros. now apply record_inv_ban.
  - intros. now apply record_inv_pick.
Qed.

(* ================================================================== *)
(** * Further theorems *)

(** X1. In every session the server can reach, the four ban counters are
    the numbers of ban records with the matching label and player, the
    lengths of [bans] and [picks] are the sums of the ban counters and of
    the pick counters, [player1Picks] and [player2Picks] are the characters
    of the picks of player 1 and of player 2 in pick order, and the [order]
    fields of [picks] are 1, 2, 3, ... *)
Theorem records_match_counters :
  forall sv d,
    reachable sv -> currentDraftState sv = Some d -> record_inv d.
Proof. intros sv d Hr Hd. exact (reachable_record_inv sv Hr d Hd). Qed.

Lemma records_match_counters_witness :
  exists d,
    currentDraftState (run seated (first_half ++ [draft_ban alice "X"]))
    = Some d
    /\ record_inv d.
Proof.
  set (sv := run seated (first_half ++ [draft_ban alice "X"])).
  let o := eval vm_compute in (currentDraftState sv) in
  match o with
  | Some ?d =>
      exists d; split; [vm_compute; reflexivity|];
      apply (records_match_counters sv d);
      [apply reachable_run, reachable_run, reachable_init
      |vm_compute; reflexivity]
  end.
Defined.

(** X2. In every session the server can reach, an item that is in both
    [bans] and [picks] was banned in phase ban2 (label phase2) after it had
    been picked in phase pick1 (order 1 to 6); while the phase is ban1 or
    pick1 no item is in both sequences. *)
Theorem overlap_is_late_ban_of_early_pick :
  forall sv d,
    reachable sv -> currentDraftState sv = Some d ->
    (forall b k,
       In b (bans d) -> In k (picks d) ->
       ban_characterId b = pick_characterId k ->
       ban_phase b = phase2 /\ 1 <= order k <= 6)
    /\ (phase d = ban1 \/ phase d = pick1 ->
        forall c, In c (banned_ids d) -> ~ In c (picked_ids d)).
Proof.
  intros sv d Hr Hd.
  destruct (reachable_overlap sv Hr d Hd) as (_ & Hov & Hearly).
  split; [exact Hov|].
  intros Hph c Hb Hp. unfold banned_ids, picked_ids in Hb, Hp.
  apply in_map_iff in Hb. destruct Hb as (b & Hidb & Hb).
  apply in_map_iff in Hp. destruct Hp as (k & Hidk & Hk).
  destruct (Hov b k Hb Hk) as [Hl _]; [congruence|].
  rewrite (Hearly Hph b Hb) in Hl. discriminate.
Qed.

Lemma overlap_is_late_ban_of_early_pick_witness :
  exists d,
    currentDraftState (run seated (first_half ++ [draft_ban alice "C1"]))
    = Some d
    /\ In (mkBan "C1" phase2 1) (bans d) /\ In (mkPick "C1" 1 1) (picks d)
    /\ (forall b k,
          In b (bans d) -> In k (picks d) ->
          ban_characterId b = pick_characterId k ->
          ban_phase b = phase2 /\ 1 <= order k <= 6).
Proof.
  set (sv := run seated (first_half ++ [draft_ban alice "C1"])).
  let o := eval vm_compute in (currentDraftState sv) in
  match o with
  | Some ?d =>
      exists d; split; [vm_compute; reflexivity|];
      split; [vm_compute; tauto|]; split; [vm_compute; tauto|];
      apply (overlap_is_late_ban_of_early_pick sv d);
      [apply reachable_run, reachable_run, reachable_init
      |vm_compute; reflexivity]
  end.
Defined.

(** X3. After a successful ban that leaves the session in a ban phase, the
    player whose turn it is has made fewer bans than their quota for that
    phase, whatever the configuration: the single skip never leaves the
    turn with a player who is done. *)
Theorem turn_goes_to_a_player_with_bans_left :
  forall user c sv d',
    succeeds (on_draft_ban user c sv) ->
    currentDraftState (fst (on_draft_ban user c sv)) = Some d' ->
    (currentPlayer d' = 1 \/ currentPlayer d' = 2)
    /\ (phase d' = ban1 ->
        count (currentPhase1BanCount d') (currentPlayer d')
        < need_ban1 (draftConfig sv) (currentPlayer d'))
    /\ (phase d' = ban2 ->
        count (currentPhase2BanCount d') (currentPlayer d')
        < bansPhase2 (draftConfig sv)).
Proof.
  intros user c sv d' H Hd'.
  destruct (ban_result _ _ _ H)
    as (n & d & _ & Hn & Hd & Hcp & Hph & _ & _ & _ & Hres).
  rewrite Hres in Hd'. injection Hd' as <-.
  destruct (record_ban_fields n c d) as (Rph & Rcp & _).
  destruct (advance_frame (draftConfig sv) (record_ban n c d))
    as (_ & _ & _ & _ & Fb1 & Fb2 & _).
  rewrite Fb1, Fb2.
  destruct Hph as [Hph | Hph].
  - rewrite (advance_ban1 (draftConfig sv) _ n) by congruence.
    destruct (done _ _ 1 && done _ _ 2) eqn:Hdone; cbn.
    + repeat split; auto; discriminate.
    + destruct (flip_then_skip_sound _ _ n Hn Hdone) as [Hp Hlt].
      repeat split; auto. rewrite Rph, Hph. discriminate.
  - rewrite (advance_ban2 (draftConfig sv) _ n) by congruence.
    destruct (done _ _ 1 && done _ _ 2) eqn:Hdone; cbn.
    + repeat split; auto; discriminate.
    + destruct (flip_then_skip_sound _ _ n Hn Hdone) as [Hp Hlt].
      repeat split; auto. rewrite Rph, Hph. discriminate.
Qed.

Lemma turn_goes_to_a_player_with_bans_left_witness :
  let sv := fst (on_draft_start alice 0 seated_balance) in
  let sv' := fst (on_draft_ban alice "A" sv) in
  let sv'' := fst (on_draft_ban bob "B" sv') in
  phase_turn sv'' = Some (ban1, 1)
  /\ exists d',
       currentDraftState sv'' = Some d'
       /\ count (currentPhase1BanCount d') (currentPlayer d')
          < need_ban1 (draftConfig sv') (currentPlayer d').
Proof.
  cbv zeta.
  set (sv := fst (on_draft_start alice 0 seated_balance)).
  set (sv' := fst (on_draft_ban alice "A" sv)).
  split; [vm_compute; reflexivity|].
  let o := eval vm_compute in (currentDraftState (fst (on_draft_ban bob "B" sv'))) in
  match o with
  | Some ?d =>
      exists d; split; [vm_compute; reflexivity|];
      refine (proj1 (proj2 (turn_goes_to_a_player_with_bans_left
                              bob "B" sv' d _ _)) _);
      vm_compute; reflexivity
  end.
Defined.

(** Messages other than [config:update] keep a session under its
    configuration. *)
Lemma session_under_run cfg es :
  forall sv,
    session_under cfg sv ->
    Forall (fun e => forall u p, e <> config_update u p) es ->
    session_under cfg (run sv es).
Proof.
  induction es as [|e es IH]; intros sv Hs Hes; cbn; auto.
  inversion Hes as [|e' es' He Hes']; subst.
  apply IH; auto. apply session_next; auto.
  destruct (next_config sv e) as [-> | (u & p & ->)].
  - now apply session_under_config.
  - exfalso. now apply (He u p).
Qed.

(** X4. In a session run under an unchanged configuration with
    bansPhase1 >= 0, balanceBans >= 0, a phase-1 quota of at least 1 for
    player 1 and bansPhase2 >= 1: once phase ban1 is over each player has
    made exactly their phase-1 quota of bans, once ban2 is over exactly
    bansPhase2 bans each, and a complete draft holds exactly
    2 * bansPhase1 + balanceBans-or-0 + 2 * bansPhase2 bans and 12 picks, 6
    for each player. *)
Theorem finished_phases_used_their_quota :
  forall cfg sv d,
    0 <= bansPhase1 cfg -> 0 <= balanceBans cfg ->
    1 <= need_ban1 cfg 1 -> 1 <= bansPhase2 cfg ->
    session_under cfg sv -> currentDraftState sv = Some d ->
    (phase d <> ban1 ->
     currentPhase1BanCount d
     = mkCounter (need_ban1 cfg 1) (need_ban1 cfg 2))
    /\ (phase d = pick2 \/ phase d = complete ->
        currentPhase2BanCount d
        = mkCounter (bansPhase2 cfg) (bansPhase2 cfg))
    /\ (phase d = complete ->
        Z.of_nat (List.length (bans d))
        = need_ban1 cfg 1 + need_ban1 cfg 2 + 2 * bansPhase2 cfg
        /\ List.length (picks d) = 12%nat
        /\ List.length (player1Picks d) = 6%nat
        /\ List.length (player2Picks d) = 6%nat).
Proof.
  intros cfg sv d H1 H2 H3 H4 Hs Hd.
  assert (H5 : 0 <= need_ban1 cfg 2)
    by (unfold need_ban1; destruct (2 =? balanceBansPlayer cfg); lia).
  pose proof (session_under_ban_inv cfg H3 H5 H4 sv Hs d Hd) as Hle.
  pose proof (session_under_quota_met cfg sv Hs d Hd) as Hge.
  pose proof (session_under_record_inv cfg sv Hs d Hd)
    as (_ & Lb & Lp & _ & (L1 & L2) & _).
  pose proof (session_under_pick_inv cfg sv Hs d Hd) as (_ & _ & Hpk).
  unfold ban_inv in Hle. unfold quota_met in Hge. unfold total in *.
  destruct (currentPhase1BanCount d) as [a1 a2].
  destruct (currentPhase2BanCount d) as [b1 b2].
  cbn [player1 player2] in *.
  destruct (phase d) eqn:Hph; cbn in Hpk; (split; [|split]);
    try solve [intros E; first [congruence | destruct E; discriminate]];
    intros _; try solve [f_equal; lia].
  destruct Hpk as (E1 & E2). rewrite E1, E2 in Lp, L1, L2.
  cbn [player1 player2] in Lp, L1, L2.
  repeat split; lia.
Qed.

Lemma finished_phases_used_their_quota_witness :
  exists d,
    currentDraftState
      (run (fst (on_draft_start alice 0 seated))
         (tl (first_half ++ second_half)))
    = Some d
    /\ phase d = complete
    /\ Z.of_nat (List.length (bans d)) = 4
    /\ List.length (picks d) = 12%nat
    /\ List.length (player1Picks d) = 6%nat
    /\ List.length (player2Picks d) = 6%nat.
Proof.
  set (sv := run (fst (on_draft_start alice 0 seated))
               (tl (first_half ++ second_half))).
  assert (Hs : session_under (mkConfig 1 1 0 1) sv).
  { unfold sv. apply session_under_run.
    - apply session_started; vm_compute; reflexivity.
    - let l := eval vm_compute in (tl (first_half ++ second_half)) in
      change (tl (first_half ++ second_half)) with l.
      repeat constructor; intros; discriminate. }
  let o := eval vm_compute in (currentDraftState sv) in
  match o with
  | Some ?d =>
      exists d; split; [vm_compute; reflexivity|];
      split; [reflexivity|];
      refine (proj2 (proj2 (finished_phases_used_their_quota
                              (mkConfig 1 1 0 1) sv d _ _ _ _ Hs _)) _);
      try (vm_compute; reflexivity); try (cbn; lia);
      vm_compute; discriminate
  end.
Defined.

(** ** The room *)






(** X7. While seat 1 is empty, a registered user whose login carried no
    discordId is taken for player 1: [getPlayerNumber] compares
    [undefined] with [undefined].  Their config:update is accepted, and
    their ban or pick is accepted like player 1's.  The same holds for
    seat 2 when seat 1 is held by somebody with a Discord id. *)
Theorem missing_discord_id_takes_an_empty_seat :
  forall sv,
    let ghost := mkUser undefined in
    (room_player1 (draftRoom sv) = None ->
     player_number sv ghost = Some 1
     /\ (forall p,
           snd (on_config_update (Some ghost) p sv) = Emit "config:updated")
     /\ (forall d c,
           currentDraftState sv = Some d -> currentPlayer d = 1 ->
           ~ In c (banned_ids d) ->
           (is_ban_phase (phase d) ->
            succeeds (on_draft_ban (Some ghost) c sv))
           /\ (is_pick_phase (phase d) -> ~ In c (picked_ids d) ->
               succeeds (on_draft_pick (Some ghost) c sv))))
    /\ (forall s1,
          room_player1 (draftRoom sv) = Some s1 ->
          seat_discordId s1 <> undefined ->
          room_player2 (draftRoom sv) = None ->
          player_number sv ghost = Some 2).
Proof.
  intros sv ghost. split.
  - intros H1.
    assert (Hn : player_number sv ghost = Some 1).
    { unfold player_number, getPlayerNumber. now rewrite H1. }
    split; [exact Hn|]. split.
    + intros p. unfold on_config_update. rewrite H1. reflexivity.
    + intros d c Hd Hcp Hc. split.
      * intros Hph.
        destruct (ban_checks ghost c sv) as (_ & Hchk).
        destruct (Hchk 1 Hn) as (_ & Hchk').
        now apply (Hchk' d Hd).
      * intros Hph Hc'. unfold succeeds, on_draft_pick.
        unfold player_number in Hn. rewrite Hn, Hd, Hcp. cbn [Z.eqb negb].
        rewrite Pos.eqb_refl. cbn [negb].
        apply startsWith_pick in Hph. rewrite Hph. cbn [negb].
        destruct (existsb _ (bans d)) eqn:Eb.
        { apply existsb_ban_ids in Eb. contradiction. }
        destruct (existsb _ (picks d)) eqn:Ep.
        { apply existsb_pick_ids in Ep. contradiction. }
        reflexivity.
  - intros s1 H1 Hid H2. unfold player_number, getPlayerNumber.
    rewrite H1, H2. cbn. destruct (seat_discordId s1); [congruence|].
    reflexivity.
Qed.

Lemma missing_discord_id_takes_an_empty_seat_witness :
  let sv := run seated [draft_start alice 0; room_leave alice] in
  room_player1 (draftRoom sv) = None
  /\ phase_turn sv = Some (ban1, 1)
  /\ player_number sv (mkUser undefined) = Some 1
  /\ succeeds (on_draft_ban (Some (mkUser undefined)) "A" sv).
Proof.
  cbv zeta.
  set (sv := run seated [draft_start alice 0; room_leave alice]).
  assert (H1 : room_player1 (draftRoom sv) = None) by reflexivity.
  destruct (proj1 (missing_discord_id_takes_an_empty_seat sv) H1)
    as (Hn & _ & Hban).
  split; [exact H1|]. split; [reflexivity|]. split; [exact Hn|].
  refine (proj1 (Hban (initialDraftState 0) "A" _ _ _) _).
  - reflexivity.
  - reflexivity.
  - intros [].
  - left. reflexivity.
Defined.

(** X8. room:join does not look at the other seat, so one user can hold
    both seats.  When both seats hold the same Discord id nobody has player
    number 2, and while it is player 2's turn every ban and pick is
    rejected and leaves the server as it is. *)
Theorem one_user_in_both_seats_blocks_player2 :
  (forall sv sock u,
     room_player2 (draftRoom sv) = None ->
     draftRoom (next sv (room_join sock (Some u) "player2"))
     = mkRoom (room_player1 (draftRoom sv))
              (Some (mkSeat (discordId u) sock)))
  /\ (forall sv,
        seat_id (room_player1 (draftRoom sv))
        = seat_id (room_player2 (draftRoom sv)) ->
        (forall i, getPlayerNumber sv i <> Some 2)
        /\ (forall d user c,
              currentDraftState sv = Some d -> currentPlayer d = 2 ->
              ~ succeeds (on_draft_ban user c sv)
              /\ ~ succeeds (on_draft_pick user c sv)
              /\ next sv (draft_ban user c) = sv
              /\ next sv (draft_pick user c) = sv)).
Proof.
  split.
  - intros sv sock u H2. unfold next. cbn. unfold on_room_join.
    cbn. rewrite H2. reflexivity.
  - intros sv Hsame.
    assert (Hno : forall i, getPlayerNumber sv i <> Some 2).
    { intros i. unfold getPlayerNumber. rewrite <- Hsame.
      destruct (JsId_eqb _ i); discriminate. }
    split; [exact Hno|].
    intros d user c Hd Hcp.
    assert (Hb : ~ succeeds (on_draft_ban user c sv)).
    { intros H. destruct (ban_result _ _ _ H)
        as (n & d0 & Ha & _ & Hd0 & Hcp0 & _).
      rewrite Hd in Hd0. injection Hd0 as <-.
      destruct user as [u|]; [|discriminate]. cbn in Ha.
      apply (Hno (discordId u)). unfold player_number in Ha. congruence. }
    assert (Hp : ~ succeeds (on_draft_pick user c sv)).
    { intros H. destruct (pick_result _ _ _ H)
        as (n & d0 & Ha & _ & Hd0 & Hcp0 & _).
      rewrite Hd in Hd0. injection Hd0 as <-.
      destruct user as [u|]; [|discriminate]. cbn in Ha.
      apply (Hno (discordId u)). unfold player_number in Ha. congruence. }
    repeat split; auto; unfold next; cbn.
    + destruct (ban_fst user c sv); [assumption|contradiction].
    + destruct (pick_fst user c sv); [assumption|contradiction].
Qed.

Lemma one_user_in_both_seats_blocks_player2_witness :
  let sv := run initialServer
              [room_join "s1" alice "player1"; room_join "s1" alice "player2";
               draft_start alice 0; draft_ban alice "A"] in
  phase_turn sv = Some (ban1, 2)
  /\ ~ succeeds (on_draft_ban alice "B" sv)
  /\ ~ succeeds (on_draft_pick alice "B" sv)
  /\ next sv (draft_ban alice "B") = sv
  /\ next sv (draft_pick alice "B") = sv.
Proof.
  cbv zeta. split; [reflexivity|].
  match goal with |- ~ succeeds (_ _ _ ?s) /\ _ => set (sv := s) end.
  let o := eval vm_compute in (currentDraftState sv) in
  match o with
  | Some ?d =>
      apply (proj2 (proj2 one_user_in_both_seats_blocks_player2 sv eq_refl)
               d alice "B"); reflexivity
  end.
Defined.

(** X9. room:leave never touches the session or the configuration, so a
    draft stays in progress when a player leaves.  A user with a Discord id
    who held one seat is no player afterwards and their bans and picks are
    rejected with NotAPlayer; a user who held both seats only gives up seat
    1 and becomes player 2. *)
Theorem leaving_keeps_the_draft :
  forall sv s c,
    let u := mkUser (jsid s) in
    let sv' := next sv (room_leave (Some u)) in
    currentDraftState sv' = currentDraftState sv
    /\ draftConfig sv' = draftConfig sv
    /\ (seat_id (room_player1 (draftRoom sv)) <> jsid s
        \/ seat_id (room_player2 (draftRoom sv)) <> jsid s ->
        player_number sv' u = None
        /\ fails_with NotAPlayer (on_draft_ban (Some u) c sv')
        /\ fails_with NotAPlayer (on_draft_pick (Some u) c sv'))
    /\ (seat_id (room_player1 (draftRoom sv)) = jsid s ->
        seat_id (room_player2 (draftRoom sv)) = jsid s ->
        player_number sv' u = Some 2).
Proof.
  intros sv s c u sv'. unfold sv', next. cbn. unfold on_room_leave. cbn.
  destruct (JsId_eqb (seat_id (room_player1 (draftRoom sv))) (jsid s)) eqn:E1;
    [|destruct (JsId_eqb (seat_id (room_player2 (draftRoom sv))) (jsid s))
        eqn:E2];
    cbn [fst]; (split; [reflexivity|]); (split; [reflexivity|]).
  - apply JsId_eqb_eq in E1. split.
    + intros [H | H]; [contradiction|].
      assert (Hn : player_number
                     (set_room (mkRoom None (room_player2 (draftRoom sv))) sv)
                     u = None).
      { unfold player_number, getPlayerNumber. cbn.
        destruct (JsId_eqb _ (jsid s)) eqn:E; [|reflexivity].
        apply JsId_eqb_eq in E. contradiction. }
      split; [exact Hn|].
      unfold fails_with, on_draft_ban, on_draft_pick.
      unfold player_number in Hn. cbn [discordId u] in *. rewrite Hn.
      split; reflexivity.
    + intros _ H2. unfold player_number, getPlayerNumber. cbn.
      rewrite H2. cbn. now rewrite String.eqb_refl.
  - apply JsId_eqb_eq in E2. split.
    + intros _.
      assert (Hn : player_number
                     (set_room (mkRoom (room_player1 (draftRoom sv)) None) sv)
                     u = None).
      { unfold player_number, getPlayerNumber. cbn. now rewrite E1. }
      split; [exact Hn|].
      unfold fails_with, on_draft_ban, on_draft_pick.
      unfold player_number in Hn. cbn [discordId u] in *. rewrite Hn.
      split; reflexivity.
    + intros H1. rewrite H1 in E1. cbn in E1.
      rewrite String.eqb_refl in E1. discriminate.
  - split.
    + intros _.
      assert (Hn : player_number sv u = None).
      { unfold player_number, getPlayerNumber. cbn. now rewrite E1, E2. }
      split; [exact Hn|].
      unfold fails_with, on_draft_ban, on_draft_pick.
      unfold player_number in Hn. cbn [discordId u] in *. rewrite Hn.
      split; reflexivity.
    + intros H1. rewrite H1 in E1. cbn in E1.
      rewrite String.eqb_refl in E1. discriminate.
Qed.

Lemma leaving_keeps_the_draft_witness :
  let sv := run seated [draft_start alice 0] in
  let sv' := next sv (room_leave alice) in
  phase_turn sv' = Some (ban1, 1)
  /\ player_number sv' (mkUser (jsid "alice")) = None
  /\ fails_with NotAPlayer (on_draft_ban alice "A" sv')
  /\ fails_with NotAPlayer (on_draft_pick alice "A" sv').
Proof.
  cbv zeta. split; [reflexivity|].
  apply (proj1 (proj2 (proj2 (leaving_keeps_the_draft
                                (run seated [draft_start alice 0])
                                "alice" "A")))).
  right. vm_compute. discriminate.
Defined.

(** ** Configuration, start and reset *)

(** X10. config:update is accepted exactly from the users that
    [getPlayerNumber] recognises, at any time, also while a session is in
    progress.  It overwrites the entries present in the message, keeps the
    others, and leaves the room and the session alone; two updates in a row
    act as one update with the later entries winning, and an update with no
    entry changes nothing. *)
Theorem config_update_merges :
  (forall u p sv,
     (player_number sv u = None ->
      handle (config_update (Some u) p) sv = (sv, Error PlayersOnly))
     /\ (player_number sv u <> None ->
         handle (config_update (Some u) p) sv
         = (mkServer (draftRoom sv) (merge_config (draftConfig sv) p)
              (currentDraftState sv),
            Emit "config:updated")))
  /\ (forall c p q,
        merge_config (merge_config c p) q = merge_config c (merge_patch p q))
  /\ (forall c, merge_config c (mkPatch None None None None) = c)
  /\ (forall c p,
        bansPhase1 (merge_config c p)
        = match patch_bansPhase1 p with Some v => v | None => bansPhase1 c end
        /\ bansPhase2 (merge_config c p)
           = match patch_bansPhase2 p with
             | Some v => v
             | None => bansPhase2 c
             end
        /\ balanceBans (merge_config c p)
           = match patch_balanceBans p with
             | Some v => v
             | None => balanceBans c
             end
        /\ balanceBansPlayer (merge_config c p)
           = match patch_balanceBansPlayer p with
             | Some v => v
             | None => balanceBansPlayer c
             end).
Proof.
  split; [|split; [|split]].
  - intros u p sv. cbn. unfold on_config_update, player_number, getPlayerNumber.
    destruct (JsId_eqb (seat_id (room_player1 (draftRoom sv))) (discordId u));
      destruct (JsId_eqb (seat_id (room_player2 (draftRoom sv))) (discordId u));
      cbn; split; intros H; try reflexivity; try discriminate;
      exfalso; now apply H.
  - intros [a1 a2 a3 a4] [p1 p2 p3 p4] [q1 q2 q3 q4]. unfold merge_config,
      merge_patch. cbn.
    destruct p1, p2, p3, p4, q1, q2, q3, q4; reflexivity.
  - intros [a1 a2 a3 a4]. reflexivity.
  - intros c p. unfold merge_config. cbn. auto.
Qed.

Lemma config_update_merges_witness :
  let sv := run seated [draft_start alice 0; draft_ban alice "A"] in
  handle (config_update bob (mkPatch (Some 3) None None None)) sv
  = (mkServer (draftRoom sv) (mkConfig 3 1 0 1) (currentDraftState sv),
     Emit "config:updated")
  /\ handle (config_update carol (mkPatch (Some 3) None None None)) sv
     = (sv, Error PlayersOnly).
Proof.
  cbv zeta. split.
  - etransitivity.
    + apply (proj2 (proj1 config_update_merges (mkUser (jsid "bob"))
                      (mkPatch (Some 3) None None None)
                      (run seated [draft_start alice 0; draft_ban alice "A"]))).
      vm_compute. discriminate.
    + vm_compute. reflexivity.
  - apply (proj1 (proj1 config_update_merges (mkUser (jsid "carol"))
                    (mkPatch (Some 3) None None None) _)).
    reflexivity.
Defined.

(** X11. draft:start and draft:reset do not ask who sends them: any
    registered user, seated or not, resets a session, and starts one
    whenever both seats are occupied, which discards the session in
    progress.  With an empty seat draft:start is rejected and changes
    nothing.  A reset followed by a start leaves the server as the start
    alone does. *)
Theorem start_and_reset_are_open_to_everyone :
  forall sv u now,
    next sv (draft_reset (Some u)) = set_state None sv
    /\ (room_player1 (draftRoom sv) <> None ->
        room_player2 (draftRoom sv) <> None ->
        next sv (draft_start (Some u) now)
        = set_state (Some (initialDraftState now)) sv
        /\ forall v,
             next (next sv (draft_reset (Some v))) (draft_start (Some u) now)
             = next sv (draft_start (Some u) now))
    /\ (room_player1 (draftRoom sv) = None
        \/ room_player2 (draftRoom sv) = None ->
        handle (draft_start (Some u) now) sv = (sv, Error PreconditionError)).
Proof.
  intros sv u now. unfold next. cbn. unfold on_draft_start. cbn.
  split; [reflexivity|]. split.
  - intros H1 H2.
    destruct (room_player1 (draftRoom sv)); [|congruence].
    destruct (room_player2 (draftRoom sv)); [|congruence].
    split; reflexivity.
  - intros [-> | ->]; [reflexivity|].
    destruct (room_player1 (draftRoom sv)); reflexivity.
Qed.

Lemma start_and_reset_are_open_to_everyone_witness :
  let sv := run seated (first_half ++ [draft_ban alice "X"]) in
  player_number sv (mkUser (jsid "carol")) = None
  /\ phase_turn sv = Some (ban2, 2)
  /\ next sv (draft_start (Some (mkUser (jsid "carol"))) 7)
     = set_state (Some (initialDraftState 7)) sv.
Proof.
  cbv zeta. split; [reflexivity|]. split; [reflexivity|].
  set (sv := run seated (first_half ++ [draft_ban alice "X"])).
  refine (proj1 (proj1 (proj2 (start_and_reset_are_open_to_everyone
                                 sv (mkUser (jsid "carol")) 7)) _ _));
    vm_compute; discriminate.
Defined.

(** ** Validation of a pick *)

(** X12. A pick attempt by a registered user is rejected with the first
    error that applies, in this order: NotAPlayer, NoActiveSession,
    NotYourTurn, WrongPhaseKind when the phase is not pick1 or pick2,
    ItemAlreadyBanned when the item is in [bans], ItemAlreadyPicked when it
    is in [picks]; when none applies the pick is accepted. *)
Theorem pick_validation_order :
  forall u c sv,
    let r := on_draft_pick (Some u) c sv in
    (player_number sv u = None -> fails_with NotAPlayer r)
    /\ (forall n,
          player_number sv u = Some n ->
          (currentDraftState sv = None -> fails_with NoActiveSession r)
          /\ (forall d,
                currentDraftState sv = Some d ->
                (currentPlayer d <> n -> fails_with NotYourTurn r)
                /\ (currentPlayer d = n -> ~ is_pick_phase (phase d) ->
                    fails_with WrongPhaseKind r)
                /\ (currentPlayer d = n -> is_pick_phase (phase d) ->
                    In c (banned_ids d) -> fails_with ItemAlreadyBanned r)
                /\ (currentPlayer d = n -> is_pick_phase (phase d) ->
                    ~ In c (banned_ids d) -> In c (picked_ids d) ->
                    fails_with ItemAlreadyPicked r)
                /\ (currentPlayer d = n -> is_pick_phase (phase d) ->
                    ~ In c (banned_ids d) -> ~ In c (picked_ids d) ->
                    succeeds r))).
Proof.
  intros u c sv.
  unfold fails_with, succeeds, on_draft_pick, player_number. cbv zeta.
  destruct (getPlayerNumber sv (discordId u)) as [m|].
  2: { split; [reflexivity|discriminate]. }
  split; [discriminate|]. intros n [= ->].
  destruct (currentDraftState sv) as [d0|].
  2: { split; [reflexivity|discriminate]. }
  split; [discriminate|]. intros d [= ->].
  destruct (Z.eqb_spec (currentPlayer d) n) as [Hcp|Hcp]; cbn [negb].
  2: { repeat split; intros; try reflexivity; contradiction. }
  pose proof (startsWith_pick (phase d)) as Hb.
  destruct (startsWith (phase d) "pick"); cbn [negb].
  2: { repeat split; intros; try reflexivity; try contradiction;
       exfalso; assert (false = true) by (apply Hb; assumption);
       discriminate. }
  assert (Hph : is_pick_phase (phase d)) by now apply Hb.
  pose proof (existsb_ban_ids c (bans d)) as He.
  fold (banned_ids d) in He.
  pose proof (existsb_pick_ids c (picks d)) as He'.
  fold (picked_ids d) in He'.
  destruct (existsb _ (bans d)).
  { assert (Hin : In c (banned_ids d)) by now apply He.
    repeat split; intros; try reflexivity; contradiction. }
  assert (Hnb : ~ In c (banned_ids d)).
  { intros Hin. apply He in Hin. discriminate. }
  destruct (existsb _ (picks d)); cbn.
  { assert (Hin : In c (picked_ids d)) by now apply He'.
    repeat split; intros; try reflexivity; contradiction. }
  assert (Hnp : ~ In c (picked_ids d)).
  { intros Hin. apply He' in Hin. discriminate. }
  repeat split; intros; try reflexivity; contradiction.
Qed.

Lemma pick_validation_order_witness :
  let sv := run seated [draft_start alice 0; draft_ban alice "A";
                        draft_ban bob "B"; draft_pick alice "C1"] in
  phase_turn sv = Some (pick1, 2)
  /\ fails_with ItemAlreadyBanned
       (on_draft_pick (Some (mkUser (jsid "bob"))) "A" sv)
  /\ fails_with ItemAlreadyPicked
       (on_draft_pick (Some (mkUser (jsid "bob"))) "C1" sv)
  /\ succeeds (on_draft_pick (Some (mkUser (jsid "bob"))) "C2" sv).
Proof.
  cbv zeta. split; [reflexivity|].
  match goal with |- fails_with _ (_ _ _ ?s) /\ _ => set (sv := s) end.
  assert (Hn : player_number sv (mkUser (jsid "bob")) = Some 2)
    by (vm_compute; reflexivity).
  let o := eval vm_compute in (currentDraftState sv) in
  match o with
  | Some ?d =>
      assert (Hd : currentDraftState sv = Some d)
        by (vm_compute; reflexivity);
      pose proof (fun c =>
        proj2 (proj2 (pick_validation_order (mkUser (jsid "bob")) c sv)
                 2 Hn) d Hd) as H
  end.
  split; [|split].
  - apply (proj1 (proj2 (proj2 (H "A"))));
      [reflexivity|left; reflexivity|vm_compute; tauto].
  - apply (proj1 (proj2 (proj2 (proj2 (H "C1")))));
      [reflexivity|left; reflexivity| |vm_compute; tauto].
    vm_compute. intros [H0 | [H0 | []]]; discriminate.
  - apply (proj2 (proj2 (proj2 (proj2 (H "C2")))));
      [reflexivity|left; reflexivity| |].
    + vm_compute. intros [H0 | [H0 | []]]; discriminate.
    + vm_compute. intros [H0 | []]; discriminate.
Defined.

(** ** Disconnects *)

(** X13. A disconnect frees the seat whose stored socket id is that of
    the closing socket, looking at seat 1 first and at seat 2 only when
    seat 1 does not match, so at most one seat is freed: a socket that
    holds both seats leaves seat 2 occupied.  A socket stored in no seat
    frees nothing, whatever its user's Discord id.  The session and the
    configuration are never touched. *)
Theorem disconnect_frees_one_seat :
  forall sv sock u,
    let sv' := next sv (disconnect sock (Some u)) in
    currentDraftState sv' = currentDraftState sv
    /\ draftConfig sv' = draftConfig sv
    /\ (seat_has_socket (room_player1 (draftRoom sv)) sock = true ->
        draftRoom sv' = mkRoom None (room_player2 (draftRoom sv)))
    /\ (seat_has_socket (room_player1 (draftRoom sv)) sock = false ->
        seat_has_socket (room_player2 (draftRoom sv)) sock = true ->
        draftRoom sv' = mkRoom (room_player1 (draftRoom sv)) None)
    /\ (seat_has_socket (room_player1 (draftRoom sv)) sock = false ->
        seat_has_socket (room_player2 (draftRoom sv)) sock = false ->
        sv' = sv).
Proof.
  intros sv sock u. unfold next. cbn. unfold on_disconnect.
  destruct (seat_has_socket (room_player1 (draftRoom sv)) sock);
    [|destruct (seat_has_socket (room_player2 (draftRoom sv)) sock)];
    cbn; repeat split; intros; auto; discriminate.
Qed.

Lemma disconnect_frees_one_seat_witness :
  let sv := run initialServer
              [room_join "s1" alice "player1"; room_join "s1" alice "player2";
               draft_start alice 0] in
  draftRoom (next sv (disconnect "s1" (Some (mkUser (jsid "alice")))))
  = mkRoom None (Some (mkSeat (jsid "alice") "s1")).
Proof.
  cbv zeta.
  set (sv := run initialServer
               [room_join "s1" alice "player1";
                room_join "s1" alice "player2"; draft_start alice 0]).
  etransitivity.
  - apply (proj1 (proj2 (proj2 (disconnect_frees_one_seat
                                  sv "s1" (mkUser (jsid "alice")))))).
    vm_compute. reflexivity.
  - vm_compute. reflexivity.
Defined.

(** ** Registered sockets *)

Lemma receive_server sock m h :
  server (fst (receive sock m h)) = server h
  \/ exists e,
       server (fst (receive sock m h)) = next (server h) e
       /\ sender e = connectedUsers h sock.
Proof.
  destruct m as [ud|slot| | |p|now|c|c| ]; cbn.
  - now left.
  - right. exists (room_join sock (connectedUsers h sock) slot). auto.
  - right. exists (room_leave (connectedUsers h sock)). auto.
  - right. exists (disconnect sock (connectedUsers h sock)). auto.
  - right. exists (config_update (connectedUsers h sock) p). auto.
  - right. exists (draft_start (connectedUsers h sock) now). auto.
  - right. exists (draft_ban (connectedUsers h sock) c). auto.
  - right. exists (draft_pick (connectedUsers h sock) c). auto.
  - right. exists (draft_reset (connectedUsers h sock)). auto.
Qed.

Lemma pick_inv_bounds d :
  pick_inv d ->
  forall p, p = 1 \/ p = 2 ->
    count (currentPick1Count d) p <= 3 /\ count (currentPick2Count d) p <= 3.
Proof.
  intros (_ & _ & Hpk) p Hp.
  destruct d as [ph cp bs ps l1 l2 b1 b2 [x1 y1] [x2 y2] bb ts].
  unfold count, triple in *. cbn in *.
  destruct Hp as [-> | ->]; lits;
    destruct ph; cbn in Hpk;
    repeat match goal with
      | H : _ /\ _ |- _ => destruct H
      | H : mkCounter _ _ = mkCounter _ _ |- _ => injection H as -> ->
      end;
    try lia;
    repeat match goal with
      | H : _ \/ _ |- _ => destruct H as [H | H]
      | H : (_, _, _) = (_, _, _) |- _ => injection H as <- <- <-
      | H : False |- _ => contradiction
      end; lia.
Qed.

(** X14. Whatever sockets log in, send messages and disconnect, the
    server stays within the states reached by the handlers alone, so every
    session keeps its invariants: each pick counter is at most 3, the
    counters count the records, and neither [bans] nor [picks] holds an
    item twice. *)
Theorem hub_keeps_the_session_invariants :
  forall h,
    hub_reachable h ->
    reachable (server h)
    /\ forall d,
         currentDraftState (server h) = Some d ->
         (forall p, p = 1 \/ p = 2 ->
            count (currentPick1Count d) p <= 3
            /\ count (currentPick2Count d) p <= 3)
         /\ record_inv d
         /\ NoDup (banned_ids d) /\ NoDup (picked_ids d).
Proof.
  intros h Hh.
  assert (Hr : reachable (server h)).
  { induction Hh as [|h sock m Hh IH]; [constructor|].
    destruct (receive_server sock m h) as [-> | (e & -> & _)]; auto.
    now constructor. }
  split; [exact Hr|]. intros d Hd.
  pose proof (reachable_pick_inv _ Hr d Hd) as Hpk.
  pose proof (reachable_record_inv _ Hr d Hd) as Hrec.
  pose proof (reachable_distinct _ Hr d Hd) as [Hb Hp].
  split; [now apply pick_inv_bounds|]. auto.
Qed.

Lemma hub_reachable_all l :
  forall h, hub_reachable h -> hub_reachable (receive_all h l).
Proof.
  induction l as [|[sock m] l IH]; intros h Hh; cbn; auto.
  apply IH. now constructor.
Qed.

Lemma hub_keeps_the_session_invariants_witness :
  reachable (server sample_hub)
  /\ exists d,
       currentDraftState (server sample_hub) = Some d
       /\ phase_turn (server sample_hub) = Some (ban1, 2)
       /\ record_inv d.
Proof.
  destruct (hub_keeps_the_session_invariants sample_hub
              (hub_reachable_all _ _ hub_init)) as [Hr Hinv].
  split; [exact Hr|].
  let o := eval vm_compute in (currentDraftState (server sample_hub)) in
  match o with
  | Some ?d =>
      assert (Hd : currentDraftState (server sample_hub) = Some d)
        by (vm_compute; reflexivity);
      exists d; split; [exact Hd|]; split; [vm_compute; reflexivity|];
      exact (proj1 (proj2 (Hinv d Hd)))
  end.
Defined.

(** X15. auth:login stores whatever discordId the message carries under
    the socket id, without any check, and leaves the other sockets and the
    server as they are.  A socket that logs in with the Discord id held by
    seat 1 is player 1 from then on: its ban is accepted whenever player
    1's would be. *)
Theorem login_is_not_verified :
  forall h sock i,
    let h' := fst (receive sock (auth_login (mkUser i)) h) in
    server h' = server h
    /\ connectedUsers h' sock = Some (mkUser i)
    /\ (forall k, k <> sock -> connectedUsers h' k = connectedUsers h k)
    /\ (seat_id (room_player1 (draftRoom (server h))) = i ->
        forall d c,
          currentDraftState (server h) = Some d ->
          currentPlayer d = 1 -> is_ban_phase (phase d) ->
          ~ In c (banned_ids d) ->
          snd (receive sock (msg_draft_ban c) h') = Emit "draft:updated").
Proof.
  intros h sock i h'. unfold h'. cbn. unfold users_set.
  rewrite String.eqb_refl.
  split; [reflexivity|]. split; [reflexivity|]. split.
  - intros k Hk. destruct (String.eqb_spec k sock); [contradiction|reflexivity].
  - intros Hseat d c Hd Hcp Hph Hc.
    assert (Hn : player_number (server h) (mkUser i) = Some 1).
    { unfold player_number, getPlayerNumber. cbn. rewrite Hseat.
      assert (E : JsId_eqb i i = true) by now apply JsId_eqb_eq.
      now rewrite E. }
    destruct (ban_checks (mkUser i) c (server h)) as (_ & Hchk).
    destruct (Hchk 1 Hn) as (_ & Hchk').
    now apply (Hchk' d Hd).
Qed.

Lemma login_is_not_verified_witness :
  let h' := fst (receive "s9" (auth_login (mkUser (jsid "bob"))) sample_hub) in
  phase_turn (server h') = Some (ban1, 2)
  /\ connectedUsers h' "s9" = Some (mkUser (jsid "bob"))
  /\ connectedUsers h' "s2" = connectedUsers sample_hub "s2".
Proof.
  cbv zeta.
  destruct (login_is_not_verified sample_hub "s9" (jsid "bob"))
    as (Hs & Hu & Hk & _).
  split; [vm_compute; reflexivity|]. split; [exact Hu|].
  apply Hk. discriminate.
Defined.

(** ** Who made the picks *)

Lemma pick_order_pick cfg n c d :
  pick_inv d -> record_inv d -> pick_order_inv d ->
  is_pick_phase (phase d) -> currentPlayer d = n ->
  pick_order_inv (advance cfg (record_pick n c d)).
Proof.
  intros (_ & _ & Hpk) (_ & _ & Lp & _) Ho Hph Hcp.
  destruct (advance_frame cfg (record_pick n c d)) as (_ & Fp & _).
  destruct (record_pick_fields n c d) as (_ & _ & _ & Rp & _).
  unfold pick_order_inv in *. rewrite Fp, Rp. clear Fp Rp.
  rewrite map_app, length_app, Ho. cbn [map pickedBy List.length].
  destruct d as [ph cp bs ps l1 l2 b1 b2 [x1 y1] [x2 y2] bb ts].
  unfold triple, total in *. cbn in Hph, Hcp, Hpk, Lp. cbn [picks]. subst cp.
  destruct Hph as [-> | ->].
  - destruct Hpk as (Hin & [= -> ->] & _). cbn in Hin.
    repeat (destruct Hin as [[= <- <- <-] | Hin];
            [match type of Lp with
             | _ = ?v =>
                 let m := eval vm_compute in (Z.to_nat v) in
                 replace (List.length ps) with m by lia; reflexivity
             end|]).
    contradiction.
  - destruct Hpk as ([= -> ->] & Hin). cbn in Hin.
    repeat (destruct Hin as [[= <- <- <-] | Hin];
            [match type of Lp with
             | _ = ?v =>
                 let m := eval vm_compute in (Z.to_nat v) in
                 replace (List.length ps) with m by lia; reflexivity
             end|]).
    contradiction.
Qed.

Lemma reachable_pick_order sv :
  reachable sv ->
  on_session (fun d => record_inv d /\ pick_order_inv d) sv.
Proof.
  apply reachable_invariant.
  - intros now. split; [apply record_inv_initial|reflexivity].
  - intros cfg n c d (Hrec & Ho) Hpk Hn Hcp Hph Hc.
    split; [now apply record_inv_ban|].
    destruct (advance_frame cfg (record_ban n c d)) as (_ & Fp & _).
    destruct (record_ban_fields n c d) as (_ & _ & _ & Rp & _).
    unfold pick_order_inv in *. now rewrite Fp, Rp.
  - intros cfg n c d (Hrec & Ho) Hpk Hn Hcp Hph Hc Hc'.
    split; [now apply record_inv_pick|now apply pick_order_pick].
Qed.

(** X16. In every session the server can reach the picks were made by
    players 1, 2, 2, 1, 1, 2, 2, 1, 1, 2, 2, 1 in this order, as far as
    they go; there are none in phase ban1, at most five in pick1, six in
    ban2, six to eleven in pick2 and twelve once the phase is complete. *)
Theorem picks_follow_the_snake :
  forall sv d,
    reachable sv -> currentDraftState sv = Some d ->
    map pickedBy (picks d) = firstn (List.length (picks d)) snake
    /\ match phase d with
       | ban1 => List.length (picks d) = 0%nat
       | pick1 => (List.length (picks d) <= 5)%nat
       | ban2 => List.length (picks d) = 6%nat
       | pick2 => (6 <= List.length (picks d) <= 11)%nat
       | complete => List.length (picks d) = 12%nat
       end.
Proof.
  intros sv d Hr Hd.
  destruct (reachable_pick_order sv Hr d Hd) as ((_ & _ & Lp & _) & Ho).
  split; [exact Ho|].
  pose proof (reachable_pick_inv sv Hr d Hd) as (_ & _ & Hpk).
  destruct d as [ph cp bs ps l1 l2 b1 b2 [x1 y1] [x2 y2] bb ts].
  unfold triple, total in *. cbn in *.
  destruct ph; cbn in Hpk;
    repeat match goal with
      | H : _ /\ _ |- _ => destruct H
      | H : mkCounter _ _ = mkCounter _ _ |- _ => injection H as -> ->
      end;
    try lia;
    repeat match goal with
      | H : _ \/ _ |- _ => destruct H as [H | H]
      | H : (_, _, _) = (_, _, _) |- _ => injection H as <- <- <-
      | H : False |- _ => contradiction
      end; lia.
Qed.

Lemma picks_follow_the_snake_witness :
  exists d,
    currentDraftState (run seated (first_half ++ second_half)) = Some d
    /\ map pickedBy (picks d) = snake.
Proof.
  set (sv := run seated (first_half ++ second_half)).
  let o := eval vm_compute in (currentDraftState sv) in
  match o with
  | Some ?d =>
      assert (Hd : currentDraftState sv = Some d)
        by (vm_compute; reflexivity);
      exists d; split; [exact Hd|];
      exact (proj1 (picks_follow_the_snake sv d
                      (reachable_run _ _ (reachable_run _ _ reachable_init))
                      Hd))
  end.
Defined.

(** ** Reconnecting *)

(** X17. A seated user who sends room:join for their own seat from
    another socket keeps the seat, which now stores the new socket id, and
    keeps their player number; the session is untouched.  The disconnect
    of the old socket then frees nothing, provided the old socket is not
    stored in seat 2. *)
Theorem rejoin_moves_the_seat_to_the_new_socket :
  forall sv s1 u sock,
    room_player1 (draftRoom sv) = Some s1 ->
    seat_discordId s1 = discordId u ->
    let sv' := next sv (room_join sock (Some u) "player1") in
    room_player1 (draftRoom sv') = Some (mkSeat (discordId u) sock)
    /\ room_player2 (draftRoom sv') = room_player2 (draftRoom sv)
    /\ currentDraftState sv' = currentDraftState sv
    /\ draftConfig sv' = draftConfig sv
    /\ player_number sv' u = Some 1
    /\ (socketId s1 <> sock ->
        seat_has_socket (room_player2 (draftRoom sv)) (socketId s1) = false ->
        forall v, next sv' (disconnect (socketId s1) (Some v)) = sv').
Proof.
  intros sv s1 u sock H1 Hid sv'. unfold sv', next. cbn.
  unfold on_room_join. cbn. rewrite H1, Hid.
  assert (E : JsId_eqb (discordId u) (discordId u) = true)
    by now apply JsId_eqb_eq.
  rewrite E. cbn.
  repeat split.
  - unfold player_number, getPlayerNumber. cbn. now rewrite E.
  - intros Hsock H2 v. unfold on_disconnect. cbn.
    destruct (String.eqb_spec sock (socketId s1)); [congruence|].
    now rewrite H2.
Qed.

Lemma rejoin_moves_the_seat_to_the_new_socket_witness :
  let sv := run seated [draft_start alice 0] in
  let sv' := next sv (room_join "s7" (Some (mkUser (jsid "alice"))) "player1") in
  room_player1 (draftRoom sv') = Some (mkSeat (jsid "alice") "s7")
  /\ phase_turn sv' = Some (ban1, 1)
  /\ next sv' (disconnect "s1" (Some (mkUser (jsid "alice")))) = sv'.
Proof.
  cbv zeta.
  set (sv := run seated [draft_start alice 0]).
  destruct (rejoin_moves_the_seat_to_the_new_socket sv
              (mkSeat (jsid "alice") "s1") (mkUser (jsid "alice")) "s7"
              eq_refl eq_refl)
    as (Hs & _ & _ & _ & _ & Hdis).
  split; [exact Hs|]. split; [reflexivity|].
  apply Hdis; [discriminate|reflexivity].
Defined.
